(** * pyams_auth_ldap.zmi: management views of the LDAP directory plug-in

    A shallow embedding of [src/pyams_auth_ldap/zmi/__init__.py]: the
    entry-detail lookup ([LDAPEntryPropertiesDisplayForm.ldap_entry]), the
    two table value adapters, the LDAP column value getter and the
    component registrations (sub-forms, fields adapters, columns) declared
    by the module. The attributes of an entry are held in the
    case-insensitive dictionary of ldap3; the query helper of
    [pyams_auth_ldap.query] and the plug-in are taken as they come. *)

From Stdlib Require Import ZArith NArith String Ascii List Strings.Byte.
From Stdlib Require Import Sorting.Sorted Permutation OrdersEx Lia.
From stdpp Require Import gmap strings list fin_maps.

Local Open Scope string_scope.
Set Warnings "-register-all".

(** ** Python values *)

(** The values that flow through the module: attribute values of an LDAP
    entry are [str], [bytes] or lists of those; request parameters are
    [str] or [None]; rows are tuples. A [str] is kept as the sequence of
    bytes of its UTF-8 encoding, so that comparing two strings byte by
    byte is comparing them code point by code point, as Python does. *)
Inductive pyval : Type :=
| PNone
| PInt (z : Z)
| PStr (s : string)
| PBytes (b : list byte)
| PList (l : list pyval)
| PTuple (l : list pyval).

(** The exceptions of the Python library that the module and its
    collaborators raise, and [LDAPException] for those of ldap3. *)
Inductive exn : Type :=
| IndexError
| TypeError
| KeyError
| ValueError
| UnicodeDecodeError
| AttributeError
| LDAPException.

Inductive result (A : Type) : Type :=
| Ok (a : A)
| Raise (e : exn).
Arguments Ok {A} a.
Arguments Raise {A} e.

Definition rbind {A B} (r : result A) (k : A -> result B) : result B :=
  match r with
  | Ok a => k a
  | Raise e => Raise e
  end.

Notation "x <- r ;;; k" := (rbind r (fun x => k))
  (at level 90, r at next level, right associativity).

(** [isinstance(v, list)]. *)
Definition is_list (v : pyval) : bool :=
  match v with PList _ => true | _ => false end.

(** ** The [base64] module of the Python library *)

Module base64.

Definition alphabet : string :=
  "ABCDEFGHIJKLMNOPQRSTUVWXYZabcdefghijklmnopqrstuvwxyz0123456789+/".

Definition pad : byte := byte_of_ascii "="%char.
Definition newline : byte := byte_of_ascii "010"%char.

(** The digit of a sextet. *)
Definition digit (i : N) : byte :=
  match String.get (N.to_nat i) alphabet with
  | Some c => byte_of_ascii c
  | None => pad
  end.

Definition sextet (n : N) (shift : N) : byte :=
  digit (N.land (N.shiftr n shift) 63).

(** [binascii.b2a_base64(data, newline=False)]: three bytes make four
    digits, a last group of one or two bytes is padded with [=]. *)
Fixpoint b64_groups (data : list byte) : list byte :=
  match data with
  | [] => []
  | [a] =>
      let n := N.shiftl (Byte.to_N a) 16 in
      [sextet n 18; sextet n 12; pad; pad]
  | [a; b] =>
      let n := N.lor (N.shiftl (Byte.to_N a) 16) (N.shiftl (Byte.to_N b) 8) in
      [sextet n 18; sextet n 12; sextet n 6; pad]
  | a :: b :: c :: rest =>
      let n := N.lor (N.lor (N.shiftl (Byte.to_N a) 16)
                            (N.shiftl (Byte.to_N b) 8)) (Byte.to_N c) in
      sextet n 18 :: sextet n 12 :: sextet n 6 :: sextet n 0 :: b64_groups rest
  end.

(** [base64.b64encode(s)]: the encoding of RFC 4648, on one line. *)
Definition b64encode (s : list byte) : list byte := b64_groups s.

(** [binascii.b2a_base64(data)]: the encoded line and its newline. *)
Definition b2a_base64 (data : list byte) : list byte :=
  b64_groups data ++ [newline].

Definition MAXLINESIZE : nat := 76.
Definition MAXBINSIZE : nat := (MAXLINESIZE / 4) * 3.

(** [range(0, stop, step)]. *)
Definition range_step (stop step : nat) : list nat :=
  map (fun k => k * step)%nat (seq 0 ((stop + step - 1) / step)).

(** [s[i : j]] for [0 <= i <= j]. *)
Definition slice (s : list byte) (i j : nat) : list byte :=
  take (j - i) (drop i s).

(** [base64.encodebytes(s)]:
<<
    pieces = []
    for i in range(0, len(s), MAXBINSIZE):
        chunk = s[i : i + MAXBINSIZE]
        pieces.append(binascii.b2a_base64(chunk))
    return the pieces, joined
>>
    applied to a [bytes] object; any other value of the model fails the
    input type check. *)
Definition encodebytes_bytes (s : list byte) : list byte :=
  concat (map (fun i => b2a_base64 (slice s i (i + MAXBINSIZE)))
              (range_step (length s) MAXBINSIZE)).

Definition encodebytes (v : pyval) : result (list byte) :=
  match v with
  | PBytes s => Ok (encodebytes_bytes s)
  | _ => Raise TypeError
  end.

End base64.

(** ** [bytes.decode()] *)

(** The default codec is UTF-8 and errors are strict. [utf8_valid] accepts
    the well-formed sequences: no overlong form, no surrogate, nothing
    above U+10FFFF. A decoded [str] keeps the same bytes. *)
Definition is_cont (b : N) : bool := (128 <=? b)%N && (b <=? 191)%N.
Definition in_range (lo hi b : N) : bool := (lo <=? b)%N && (b <=? hi)%N.

Fixpoint utf8_valid_N (l : list N) : bool :=
  match l with
  | [] => true
  | b0 :: l1 =>
      if (b0 <? 128)%N then utf8_valid_N l1
      else match l1 with
      | [] => false
      | b1 :: l2 =>
          if in_range 194 223 b0 then is_cont b1 && utf8_valid_N l2
          else match l2 with
          | [] => false
          | b2 :: l3 =>
              if in_range 224 239 b0 then
                (if (b0 =? 224)%N then in_range 160 191 b1
                 else if (b0 =? 237)%N then in_range 128 159 b1
                 else is_cont b1)
                && is_cont b2 && utf8_valid_N l3
              else match l3 with
              | [] => false
              | b3 :: l4 =>
                  in_range 240 244 b0
                  && (if (b0 =? 240)%N then in_range 144 191 b1
                      else if (b0 =? 244)%N then in_range 128 143 b1
                      else is_cont b1)
                  && is_cont b2 && is_cont b3 && utf8_valid_N l4
              end
          end
      end
  end.

Definition utf8_valid (l : list byte) : bool := utf8_valid_N (map Byte.to_N l).

Definition decode (b : list byte) : result string :=
  if utf8_valid b then Ok (string_of_list_byte b) else Raise UnicodeDecodeError.

(** ** [str.format] and [str.join] *)

Definition dquote : string := String "034"%char EmptyString.

(** ['<img src="data:image/jpeg;base64,{0}" />'.format(payload)]. *)
Definition img_format (payload : string) : string :=
  "<img src=" +:+ dquote +:+ "data:image/jpeg;base64," +:+ payload
  +:+ dquote +:+ " />".

(** The elements of an iterable handed to [str.join] must all be [str]. *)
Fixpoint strs_of (l : list pyval) : result (list string) :=
  match l with
  | [] => Ok []
  | PStr s :: l' => rbind (strs_of l') (fun ss => Ok (s :: ss))
  | _ :: _ => Raise TypeError
  end.

Definition str_join (sep : string) (l : list pyval) : result pyval :=
  rbind (strs_of l) (fun ss => Ok (PStr (String.concat sep ss))).

(** ** Dictionaries, sequences, sorting *)

(** [d.get(key, default)]; [d.get(key)] is [dict_get d key PNone]. *)
Definition dict_get (d : gmap string pyval) (key : string) (default : pyval) : pyval :=
  match d !! key with
  | Some v => v
  | None => default
  end.

(** The characters of a [str]: each byte that starts a UTF-8 sequence,
    with the continuation bytes that follow it. *)
Fixpoint str_chars_aux (s : string) : string * list string :=
  match s with
  | EmptyString => (EmptyString, [])
  | String c s' =>
      let '(pending, chars) := str_chars_aux s' in
      if is_cont (N_of_ascii c) then (String c pending, chars)
      else (EmptyString, String c pending :: chars)
  end.

Definition str_chars (s : string) : list string := (str_chars_aux s).2.

(** What iterating over a value yields: [iter(v)], as [yield from v] and
    [v[0]] use it. *)
Definition py_iter (v : pyval) : result (list pyval) :=
  match v with
  | PList l | PTuple l => Ok l
  | PStr s => Ok (map PStr (str_chars s))
  | PBytes b => Ok (map (fun x => PInt (Z.of_N (Byte.to_N x))) b)
  | PNone | PInt _ => Raise TypeError
  end.

(** [seq[0]]. *)
Definition getitem0 (v : pyval) : result pyval :=
  items <- py_iter v ;;;
  match items with
  | x :: _ => Ok x
  | [] => Raise IndexError
  end.

(** [sorted(items, key=lambda x: x[0])]: a stable sort that compares the
    keys with [<]. An item goes in front of the first item of the sorted
    tail whose key is not smaller, so items of equal keys keep their order. *)
Fixpoint insert_by_key (x : string * pyval) (l : list (string * pyval))
  : list (string * pyval) :=
  match l with
  | [] => [x]
  | y :: l' =>
      if String.ltb (fst y) (fst x) then y :: insert_by_key x l' else x :: l
  end.

Fixpoint sorted_by_key (l : list (string * pyval)) : list (string * pyval) :=
  match l with
  | [] => []
  | x :: l' => insert_by_key x (sorted_by_key l')
  end.

(** An item of [dict.items()] as the tuple Python makes of it. *)
Definition item_tuple (kv : string * pyval) : pyval :=
  PTuple [PStr (fst kv); kv.2].

(** ** The attributes of an entry: the case-insensitive dictionary of ldap3 *)

(** The attributes of an entry come in a [CaseInsensitiveDict] of
    [ldap3.utils.ciDict]. The dictionary files every item under the
    folded form of its key, which its [_ci_key] method computes
    ([key.strip().lower()]), and remembers the key as it was first
    written: [ci_store] maps a folded key to the key as written and the
    value. [ci_wf] says that every item is filed under the folded form of
    its own key. The folding is a field of the dictionary, as the method
    is; the one fact the views need of it is [ci_photos]: the names of
    the two photo attributes are not folded into one. *)
Record CaseInsensitiveDict : Type := {
  ci_key : string -> string;
  ci_store : gmap string (string * pyval);
  ci_wf : forallb (fun e => String.eqb (ci_key e.2.1) e.1) (map_to_list ci_store) = true;
  ci_photos : String.eqb (ci_key "jpegPhoto") (ci_key "thumbnailPhoto") = false
}.

(** [d.get(key, default)], on the store of the dictionary. *)
Definition ci_lookup (fold : string -> string) (store : gmap string (string * pyval))
  (key : string) (default : pyval) : pyval :=
  match store !! fold key with
  | Some kv => kv.2
  | None => default
  end.

(** [d[key] = item]: an item filed under the folded key takes the new
    value and keeps its key as written; otherwise a new item is filed. *)
Definition ci_setitem (fold : string -> string) (key : string) (item : pyval)
  (store : gmap string (string * pyval)) : gmap string (string * pyval) :=
  match store !! fold key with
  | Some kv => <[fold key := (kv.1, item)]> store
  | None => <[fold key := (key, item)]> store
  end.

(** [d.items()]: the keys as written, with their values. *)
Definition ci_items (store : gmap string (string * pyval)) : list (string * pyval) :=
  map snd (map_to_list store).

Definition ci_get (d : CaseInsensitiveDict) (key : string) (default : pyval) : pyval :=
  ci_lookup (ci_key d) (ci_store d) key default.

(** ** The collaborators: ldap3 constants, the query helper, the plug-in *)

(** [ldap3.BASE] and [ldap3.ALL_ATTRIBUTES]. *)
Definition BASE : string := "BASE".
Definition ALL_ATTRIBUTES : string := "*".

(** A directory entry as the query helper returns it: the distinguished
    name and the mapping of attribute names to values. *)
Definition ldap_entry_row : Type := string * CaseInsensitiveDict.

(** Modelled from the spec: the class [LDAPQuery] of
    [pyams_auth_ldap.query] is not among the sources; the spec knows it as
    the external query helper and query executor, defined elsewhere.
    Nothing is assumed of it: [LDAPQuery] is its constructor, called with
    the base DN, the filter, the scope and the attributes, and [execute]
    its method; both are any functions of their arguments, and both may
    raise. *)
Record LDAPQuery_class (Conn Query : Type) : Type := {
  LDAPQuery : pyval -> string -> string -> string -> result Query;
  execute : Query -> Conn -> result (list ldap_entry_row)
}.
Arguments LDAPQuery {Conn Query} _ _ _ _ _.
Arguments execute {Conn Query} _ _ _.

Record Request : Type := { params : gmap string string }.

(** [request.params.get(key)]. *)
Definition params_get (request : Request) (key : string) : pyval :=
  match params request !! key with
  | Some v => PStr v
  | None => PNone
  end.

(** The plug-in object ([ILDAPPlugin]), as far as the views use it.
    [get_connection()] belongs to [pyams_auth_ldap.plugin]: it gives a
    connection or raises. *)
Record LDAPPlugin (Conn : Type) : Type := {
  get_connection : result Conn;
  uid_attribute : string;
  get_search_results : gmap string pyval -> list ldap_entry_row
}.
Arguments get_connection {Conn} _.
Arguments uid_attribute {Conn} _.
Arguments get_search_results {Conn} _ _.

(** ** Calls to the directory, and the state of a form instance *)

(** The calls a view makes to its collaborators, in the order made. *)
Inductive call (Conn Query : Type) : Type :=
| GetConnection
| Execute (query : Query) (conn : Conn).
Arguments GetConnection {Conn Query}.
Arguments Execute {Conn Query} query conn.

(** The instance dictionary of the display form holds the value of the
    reified property once it has been computed. *)
Record form_state (Conn Query : Type) : Type := {
  reified_ldap_entry : option (gmap string pyval);
  calls : list (call Conn Query)
}.
Arguments reified_ldap_entry {Conn Query} _.
Arguments calls {Conn Query} _.

Definition fresh {Conn Query : Type} : form_state Conn Query :=
  {| reified_ldap_entry := None; calls := [] |}.

(** Computations that read and write the form state and may raise. The
    state survives an exception: calls already made stay made. *)
Definition M (Conn Query A : Type) : Type :=
  form_state Conn Query -> result A * form_state Conn Query.

Definition ret {Conn Query A} (a : A) : M Conn Query A := fun st => (Ok a, st).

Definition bind {Conn Query A B} (m : M Conn Query A) (k : A -> M Conn Query B)
  : M Conn Query B :=
  fun st =>
    match m st with
    | (Ok a, st') => k a st'
    | (Raise e, st') => (Raise e, st')
    end.

Definition lift {Conn Query A} (r : result A) : M Conn Query A := fun st => (r, st).

Definition record_call {Conn Query} (c : call Conn Query) : M Conn Query unit :=
  fun st => (Ok tt, {| reified_ldap_entry := reified_ldap_entry st;
                       calls := calls st ++ [c] |}).

Notation "x <~ m ;; k" := (bind m (fun x => k))
  (at level 90, m at next level, right associativity).

(** [pyramid.decorator.reify]: the first read runs the getter and stores
    its value in the instance dictionary; later reads find it there. A
    getter that raises stores nothing. *)
Definition reify {Conn Query} (getter : M Conn Query (gmap string pyval))
  : M Conn Query (gmap string pyval) :=
  fun st =>
    match reified_ldap_entry st with
    | Some val => (Ok val, st)
    | None =>
        match getter st with
        | (Ok val, st') =>
            (Ok val, {| reified_ldap_entry := Some val; calls := calls st' |})
        | (Raise e, st') => (Raise e, st')
        end
    end.

(** ** The views *)

Section Views.

Context {Conn Query : Type}.

Variable query_class : LDAPQuery_class Conn Query.

(** [plugin.get_connection()]. *)
Definition call_get_connection (plugin : LDAPPlugin Conn) : M Conn Query Conn :=
  _ <~ record_call GetConnection ;; lift (get_connection plugin).

(** [query.execute(conn)]. *)
Definition call_execute (query : Query) (conn : Conn)
  : M Conn Query (list ldap_entry_row) :=
  _ <~ record_call (Execute query conn) ;; lift (execute query_class query conn).

(** The photo block of [ldap_entry], which the source writes once for
    ['jpegPhoto'] and once for ['thumbnailPhoto']:
<<
    photo = attributes.get(name)
    if photo is not None:
        if isinstance(photo, list):
            photo = photo[0]
        attributes[name] = [
            '<img src="data:image/jpeg;base64,{0}" />'.format(
                base64.encodebytes(photo).decode())
        ]
>>
    [attributes] is the dictionary of the entry: the block reads and
    writes its store, with its folding of the keys. *)
Definition photo_markup (fold : string -> string)
  (attributes : gmap string (string * pyval)) (name : string)
  : result (gmap string (string * pyval)) :=
  let photo := ci_lookup fold attributes name PNone in
  match photo with
  | PNone => Ok attributes
  | _ =>
      photo <- (if is_list photo then getitem0 photo else Ok photo) ;;;
      encoded <- base64.encodebytes photo ;;;
      payload <- decode encoded ;;;
      Ok (ci_setitem fold name (PList [PStr (img_format payload)]) attributes)
  end.

(** [result[0]]. *)
Definition first_row (rows : list ldap_entry_row) : result ldap_entry_row :=
  match rows with
  | row :: _ => Ok row
  | [] => Raise IndexError
  end.

(** The getter of [LDAPEntryPropertiesDisplayForm.ldap_entry]. *)
Definition ldap_entry_getter (plugin : LDAPPlugin Conn) (request : Request)
  : M Conn Query (gmap string pyval) :=
  conn <~ call_get_connection plugin ;;
  let dn := params_get request "dn" in
  query <~ lift (LDAPQuery query_class dn "(objectclass=*)" BASE ALL_ATTRIBUTES) ;;
  result <~ call_execute query conn ;;
  if (match result with [] => true | _ => false end)
     || (1 <? length result)%nat
  then ret ∅
  else
    row <~ lift (first_row result) ;;
    let '(dn, attributes) := row in
    let fold := ci_key attributes in
    attrs <~ lift (photo_markup fold (ci_store attributes) "jpegPhoto") ;;
    attrs <~ lift (photo_markup fold attrs "thumbnailPhoto") ;;
    let result := sorted_by_key (ci_items attrs) in
    ret (<["dn" := PStr dn]>
           (<["attributes" := PList (map item_tuple result)]> ∅)).

(** [form.ldap_entry]: the reified property. *)
Definition ldap_entry (plugin : LDAPPlugin Conn) (request : Request)
  : M Conn Query (gmap string pyval) :=
  reify (ldap_entry_getter plugin request).

(** The distinguished name [ldap_entry_display_form_title] puts in the
    title: [form.ldap_entry.get('dn', _('unknown'))]. *)
Definition ldap_entry_display_form_title_dn
  (plugin : LDAPPlugin Conn) (request : Request) : M Conn Query pyval :=
  entry <~ ldap_entry plugin request ;;
  ret (dict_get entry "dn" (PStr "unknown")).

(** [LDAPEntryPropertiesTableValues.values]:
    [yield from self.view.view.ldap_entry.get('attributes', ())]. *)
Definition LDAPEntryPropertiesTableValues_values
  (plugin : LDAPPlugin Conn) (request : Request) : M Conn Query (list pyval) :=
  entry <~ ldap_entry plugin request ;;
  lift (py_iter (dict_get entry "attributes" (PTuple []))).


(** [LDAPColumn.get_value(obj)], for a column whose [attr_name] is given:
    [obj[1]] is the dictionary of the row. *)
Definition LDAPColumn_get_value (attr_name : string) (obj : ldap_entry_row)
  : result pyval :=
  let value := ci_get obj.2 attr_name (PTuple []) in
  match value with
  | PList l | PTuple l => str_join "<br /> " l
  | _ => Ok value
  end.

(** [LDAPEntryAttributeColumn.get_value(obj)]: [obj[0]]. *)
Definition LDAPEntryAttributeColumn_get_value (obj : pyval) : result pyval :=
  getitem0 obj.

End Views.

(** ** Form fields *)

(** A [Fields] manager, as the ordered names of its fields. *)
Definition Fields : Type := list string.

(** [fields.select] of some names: the named fields in the order asked for;
    an unknown name raises [KeyError], a name given twice is refused
    when the new manager is built. *)
Fixpoint select_each (names : list string) (fields : Fields) : result Fields :=
  match names with
  | [] => Ok []
  | n :: names' =>
      if bool_decide (n ∈ fields)
      then rest <- select_each names' fields ;;; Ok (n :: rest)
      else Raise KeyError
  end.

Definition select (names : list string) (fields : Fields) : result Fields :=
  selected <- select_each names fields ;;;
  if bool_decide (NoDup selected) then Ok selected else Raise ValueError.

(** ** Component registrations *)

Inductive interface : Type :=
| Interface
| ISecurityManager
| ILDAPPlugin
| IPyAMSLayer
| IAdminLayer
| IInnerTabForm
| IFormFields
| IFormTitle
| IValues
| IColumn
| ILDAPPluginConnectionSubform
| ILDAPPluginUsersSchemaSubform
| ILDAPPluginGroupsSchemaSubform
| ILDAPPluginSearchSettingsSubform.

#[global] Instance interface_eq_dec : EqDecision interface.
Proof. solve_decision. Defined.

(** The classes of the module that registrations name as the view. *)
Inductive view_class : Type :=
| LDAPPluginAddForm
| LDAPPluginPropertiesEditForm
| LDAPPluginSearchResultsTable
| LDAPEntryPropertiesDisplayForm
| LDAPEntryPropertiesTable.

#[global] Instance view_class_eq_dec : EqDecision view_class.
Proof. solve_decision. Defined.

(** One element of [required=(...)]: an interface or a class. *)
Inductive required_spec : Type :=
| I (i : interface)
| C (c : view_class).

Inductive form_base : Type := InnerAddForm | InnerEditForm.

(** A sub-form class: its base, its class attributes and the interfaces
    its [@implementer] decorator declares. [fields] is [None] when the
    class body sets no [fields] attribute. *)
Record inner_form : Type := {
  base : form_base;
  title : string;
  fields : option (result Fields);
  weight : Z;
  implements : list interface
}.

(** A column class built on [LDAPColumn]. *)
Record ldap_column (Conn : Type) : Type := {
  i18n_header : string;
  attr_name : LDAPPlugin Conn -> string;
  column_weight : Z
}.
Arguments i18n_header {Conn} _.
Arguments attr_name {Conn} _ _.
Arguments column_weight {Conn} _.

(** What a registration installs. *)
Inductive factory (Conn : Type) : Type :=
| InnerTabFormClass (form : inner_form)
| FormFieldsGetter (getter : result Fields)
| LDAPColumnClass (column : ldap_column Conn)
| OtherFactory (qualname : string).
Arguments InnerTabFormClass {Conn} form.
Arguments FormFieldsGetter {Conn} getter.
Arguments LDAPColumnClass {Conn} column.
Arguments OtherFactory {Conn} qualname.

(** [@adapter_config(name=..., required=(...), provides=...)]. *)
Record adapter_config (Conn : Type) : Type := {
  name : string;
  required : list required_spec;
  provides : interface;
  registered : factory Conn
}.
Arguments name {Conn} _.
Arguments required {Conn} _.
Arguments provides {Conn} _.
Arguments registered {Conn} _.

(** An object handed to a registry lookup: the class it is an instance
    of, when that is one of [view_class], and the interfaces it provides. *)
Record component : Type := {
  instance_of : option view_class;
  provided_by : list interface
}.

Definition spec_matches (s : required_spec) (o : component) : bool :=
  match s with
  | I Interface => true
  | I i => bool_decide (i ∈ provided_by o)
  | C c => bool_decide (instance_of o = Some c)
  end.

Fixpoint all_match (specs : list required_spec) (objects : list component) : bool :=
  match specs, objects with
  | [], [] => true
  | s :: specs', o :: objects' => spec_matches s o && all_match specs' objects'
  | _, _ => false
  end.

(** [registry.getAdapters(objects, provided)]: the registrations for
    [provided] whose requirements the objects meet, in registration order. *)
Definition get_adapters {Conn} (registry : list (adapter_config Conn))
  (objects : list component) (provided : interface) : list (adapter_config Conn) :=
  filter (fun a => bool_decide (provides a = provided)
                   && all_match (required a) objects) registry.

Section Registrations.

Context {Conn : Type}.

(** [Fields(ILDAPPlugin)]: the fields of the plug-in schema, which
    [pyams_auth_ldap.interfaces] declares. *)
Variable ILDAPPlugin_fields : Fields.

(** *** Sub-forms of the add form *)

Definition LDAPPluginConnectionAddForm : inner_form := {|
  base := InnerAddForm;
  title := "Connection";
  fields := None;
  weight := 1;
  implements := [ILDAPPluginConnectionSubform]
|}.

Definition LDAPPluginUsersSchemaAddForm : inner_form := {|
  base := InnerAddForm;
  title := "Users schema";
  fields := Some (select ["base_dn"; "search_scope"; "login_attribute";
                          "login_query"; "uid_attribute"; "uid_query";
                          "title_format"; "mail_attribute";
                          "user_extra_attributes"] ILDAPPlugin_fields);
  weight := 10;
  implements := []
|}.

Definition LDAPPluginGroupsSchemaAddForm : inner_form := {|
  base := InnerAddForm;
  title := "Groups schema";
  fields := Some (select ["groups_base_dn"; "groups_search_scope"; "group_prefix";
                          "group_uid_attribute"; "group_title_format";
                          "group_members_query_mode"; "groups_query";
                          "group_members_attribute"; "user_groups_attribute";
                          "group_mail_mode"; "group_replace_expression";
                          "group_mail_attribute"; "group_extra_attributes"]
                         ILDAPPlugin_fields);
  weight := 20;
  implements := []
|}.

Definition LDAPPluginSearchSettingsAddForm : inner_form := {|
  base := InnerAddForm;
  title := "Search settings";
  fields := Some (select ["users_select_query"; "users_search_query";
                          "groups_select_query"; "groups_search_query"]
                         ILDAPPlugin_fields);
  weight := 30;
  implements := []
|}.

(** *** Sub-forms of the properties edit form *)

Definition LDAPPluginConnectionEditForm : inner_form := {|
  base := InnerEditForm;
  title := "Connection";
  fields := None;
  weight := 1;
  implements := [ILDAPPluginConnectionSubform]
|}.

Definition LDAPPluginUsersSchemaEditForm : inner_form := {|
  base := InnerEditForm;
  title := "Users schema";
  fields := Some (select ["base_dn"; "search_scope"; "login_attribute";
                          "login_query"; "uid_attribute"; "uid_query";
                          "title_format"; "mail_attribute";
                          "user_extra_attributes"] ILDAPPlugin_fields);
  weight := 10;
  implements := []
|}.

Definition LDAPPluginGroupsSchemaEditForm : inner_form := {|
  base := InnerEditForm;
  title := "Groups schema";
  fields := Some (select ["groups_base_dn"; "groups_search_scope"; "group_prefix";
                          "group_uid_attribute"; "group_title_format";
                          "group_members_query_mode"; "groups_query";
                          "group_members_attribute"; "user_groups_attribute";
                          "group_mail_mode"; "group_replace_expression";
                          "group_mail_attribute"; "group_extra_attributes"]
                         ILDAPPlugin_fields);
  weight := 20;
  implements := []
|}.

Definition LDAPPluginSearchSettingsEditForm : inner_form := {|
  base := InnerEditForm;
  title := "Search settings";
  fields := Some (select ["users_select_query"; "users_search_query";
                          "groups_select_query"; "groups_search_query"]
                         ILDAPPlugin_fields);
  weight := 30;
  implements := []
|}.

(** *** Fields adapters of the sub-forms *)

Definition ldap_plugin_connection_fields : result Fields :=
  select ["server_uri"; "start_tls"; "bind_dn"; "bind_password"; "bind_mode"]
         ILDAPPlugin_fields.

Definition ldap_plugin_users_schema_fields : result Fields :=
  select ["base_dn"; "search_scope"; "login_attribute";
          "login_query"; "uid_attribute"; "uid_query";
          "title_format"; "mail_attribute";
          "user_extra_attributes"] ILDAPPlugin_fields.

Definition ldap_plugin_groups_schema_fields : result Fields :=
  select ["groups_base_dn"; "groups_search_scope"; "group_prefix";
          "group_uid_attribute"; "group_title_format";
          "group_members_query_mode"; "groups_query";
          "group_members_attribute"; "user_groups_attribute";
          "group_mail_mode"; "group_replace_expression";
          "group_mail_attribute"; "group_extra_attributes"] ILDAPPlugin_fields.

Definition ldap_plugin_search_settings_fields : result Fields :=
  select ["users_select_query"; "users_search_query";
          "groups_select_query"; "groups_search_query"] ILDAPPlugin_fields.

(** *** Columns of the search results table *)

Definition LDAPPluginSearchUIDColumn : ldap_column Conn := {|
  i18n_header := "UID";
  attr_name := fun context => uid_attribute context;
  column_weight := 10
|}.

Definition LDAPPluginSearchCNColumn : ldap_column Conn := {|
  i18n_header := "Common name";
  attr_name := fun _ => "cn";
  column_weight := 20
|}.

Definition LDAPPluginSearchMailColumn : ldap_column Conn := {|
  i18n_header := "Mail address";
  attr_name := fun _ => "mail";
  column_weight := 30
|}.

(** *** The adapter registrations of the module, in source order *)

Definition adapter (n : string) (r : list required_spec) (p : interface)
  (f : factory Conn) : adapter_config Conn :=
  {| name := n; required := r; provides := p; registered := f |}.

Definition registry : list (adapter_config Conn) := [
  adapter "connection" [I ISecurityManager; I IAdminLayer; C LDAPPluginAddForm]
    IInnerTabForm (InnerTabFormClass LDAPPluginConnectionAddForm);
  adapter "users-schema" [I ISecurityManager; I IAdminLayer; C LDAPPluginAddForm]
    IInnerTabForm (InnerTabFormClass LDAPPluginUsersSchemaAddForm);
  adapter "groups-schema" [I ISecurityManager; I IAdminLayer; C LDAPPluginAddForm]
    IInnerTabForm (InnerTabFormClass LDAPPluginGroupsSchemaAddForm);
  adapter "search-settings" [I ISecurityManager; I IAdminLayer; C LDAPPluginAddForm]
    IInnerTabForm (InnerTabFormClass LDAPPluginSearchSettingsAddForm);
  adapter "connection" [I ILDAPPlugin; I IAdminLayer; C LDAPPluginPropertiesEditForm]
    IInnerTabForm (InnerTabFormClass LDAPPluginConnectionEditForm);
  adapter "users-schema" [I ILDAPPlugin; I IAdminLayer; C LDAPPluginPropertiesEditForm]
    IInnerTabForm (InnerTabFormClass LDAPPluginUsersSchemaEditForm);
  adapter "groups-schema" [I ILDAPPlugin; I IAdminLayer; C LDAPPluginPropertiesEditForm]
    IInnerTabForm (InnerTabFormClass LDAPPluginGroupsSchemaEditForm);
  adapter "search-settings" [I ILDAPPlugin; I IAdminLayer; C LDAPPluginPropertiesEditForm]
    IInnerTabForm (InnerTabFormClass LDAPPluginSearchSettingsEditForm);
  adapter EmptyString [I Interface; I IAdminLayer; I ILDAPPluginConnectionSubform]
    IFormFields (FormFieldsGetter ldap_plugin_connection_fields);
  adapter EmptyString [I Interface; I IAdminLayer; I ILDAPPluginUsersSchemaSubform]
    IFormFields (FormFieldsGetter ldap_plugin_users_schema_fields);
  adapter EmptyString [I Interface; I IAdminLayer; I ILDAPPluginGroupsSchemaSubform]
    IFormFields (FormFieldsGetter ldap_plugin_groups_schema_fields);
  adapter EmptyString [I Interface; I IAdminLayer; I ILDAPPluginSearchSettingsSubform]
    IFormFields (FormFieldsGetter ldap_plugin_search_settings_fields);
  adapter EmptyString [I ILDAPPlugin; I IAdminLayer; C LDAPPluginSearchResultsTable]
    IValues (OtherFactory "LDAPPluginSearchResultsValues");
  adapter "uid" [I ILDAPPlugin; I IAdminLayer; C LDAPPluginSearchResultsTable]
    IColumn (LDAPColumnClass LDAPPluginSearchUIDColumn);
  adapter "cn" [I ILDAPPlugin; I IAdminLayer; C LDAPPluginSearchResultsTable]
    IColumn (LDAPColumnClass LDAPPluginSearchCNColumn);
  adapter "mail" [I ILDAPPlugin; I IAdminLayer; C LDAPPluginSearchResultsTable]
    IColumn (LDAPColumnClass LDAPPluginSearchMailColumn);
  adapter EmptyString [I ILDAPPlugin; I IAdminLayer; C LDAPEntryPropertiesDisplayForm]
    IFormTitle (OtherFactory "ldap_entry_display_form_title");
  adapter EmptyString [I ILDAPPlugin; I IAdminLayer; C LDAPEntryPropertiesTable]
    IValues (OtherFactory "LDAPEntryPropertiesTableValues");
  adapter "attribute" [I ILDAPPlugin; I IAdminLayer; C LDAPEntryPropertiesTable]
    IColumn (OtherFactory "LDAPEntryAttributeColumn");
  adapter "values" [I ILDAPPlugin; I IAdminLayer; C LDAPEntryPropertiesTable]
    IColumn (OtherFactory "LDAPEntryValuesColumn")
].

(** *** The objects the lookups are made for *)

Definition security_manager : component :=
  {| instance_of := None; provided_by := [ISecurityManager] |}.

Definition ldap_plugin : component :=
  {| instance_of := None; provided_by := [ILDAPPlugin] |}.

(** A request of the management interface; [IAdminLayer] extends
    [IPyAMSLayer]. *)
Definition admin_request : component :=
  {| instance_of := None; provided_by := [IAdminLayer; IPyAMSLayer] |}.

Definition instance (c : view_class) : component :=
  {| instance_of := Some c; provided_by := [] |}.

Definition inner_form_instance (f : inner_form) : component :=
  {| instance_of := None; provided_by := IInnerTabForm :: implements f |}.

(** The inner tab forms of a form: the named [IInnerTabForm] adapters of
    (context, request, form). *)
Definition inner_tab_forms (context : component) (form : view_class)
  : list (string * inner_form) :=
  omap (fun a => match registered a with
                 | InnerTabFormClass f => Some (name a, f)
                 | _ => None
                 end)
       (get_adapters registry [context; admin_request; instance form] IInnerTabForm).

(** The fields of a sub-form: the [fields] attribute of its class when
    the class sets one, else what the [IFormFields] adapter of
    (context, request, form) returns, else no field. *)
Definition form_fields (context : component) (f : inner_form) : result Fields :=
  match fields f with
  | Some fs => fs
  | None =>
      match get_adapters registry [context; admin_request; inner_form_instance f]
                         IFormFields with
      | a :: _ =>
          match registered a with
          | FormFieldsGetter getter => getter
          | _ => Ok []
          end
      | [] => Ok []
      end
  end.



End Registrations.
(** ** More of the module *)

(** *** The row links of the search results table *)

(** A data attribute of a table element: a fixed string, or a function
    of the row and the column. *)
Inductive attr_value (Col : Type) : Type :=
| Static (s : string)
| Dynamic (f : ldap_entry_row -> Col -> string).
Arguments Static {Col} s.
Arguments Dynamic {Col} f.

(** [attributes.setdefault(key, {}).update(new)], then [attributes]: the
    dictionary under [key], made empty when there is none, takes the
    items of [new], which replace the items it had under the same names. *)
Definition setdefault_update {V} (key : string) (new : gmap string V)
  (attrs : gmap string (gmap string V)) : gmap string (gmap string V) :=
  let found := match attrs !! key with Some d => d | None => ∅ end in
  <[key := new ∪ found]> attrs.

Section DataAttributes.

Context {Conn Col : Type}.

(** [absolute_url(context, request, view_name, query)] belongs to
    [pyams_utils.url]. *)
Variable absolute_url :
  LDAPPlugin Conn -> Request -> string -> gmap string pyval -> string.

(** [LDAPPluginSearchResultsTable.data_attributes], from the value of
    [super().data_attributes]. *)
Definition LDAPPluginSearchResultsTable_data_attributes
  (super_data_attributes : gmap string (gmap string (attr_value Col)))
  (context : LDAPPlugin Conn) (request : Request)
  : gmap string (gmap string (attr_value Col)) :=
  setdefault_update "tr"
    (<["data-ams-url" :=
         Dynamic (fun row col =>
                    absolute_url context request "ldap-properties.html"
                                 (<["dn" := PStr row.1]> ∅))]>
       (<["data-toggle" := Static "modal"]> ∅))
    super_data_attributes.

End DataAttributes.

(** *** The fields of the add form *)

Inductive widget : Type := SingleCheckBoxFieldWidget.

(** A field of a form, with the widget factory set on it, if any. *)
Record form_field : Type := {
  field_name : string;
  widget_factory : option widget
}.

(** [fields.omit] of some names: the fields that bear none of them. *)
Definition omit (names : list string) (fields : Fields) : Fields :=
  filter (fun n => n ∉ names) fields.

(** [fields[name].widget_factory = w]. *)
Definition set_widget_factory (name : string) (w : widget)
  (fields : list form_field) : result (list form_field) :=
  if bool_decide (name ∈ map field_name fields)
  then Ok (map (fun f => if String.eqb (field_name f) name
                         then {| field_name := field_name f;
                                 widget_factory := Some w |}
                         else f) fields)
  else Raise KeyError.

(** The [fields] of [LDAPPluginAddForm]:
<<
    fields = Fields(IPlugin).omit('__parent__', '__name__')
    fields['enabled'].widget_factory = SingleCheckBoxFieldWidget
>>
    from the names of the fields of [IPlugin], which [pyams_security]
    declares. *)
Definition LDAPPluginAddForm_fields (IPlugin_fields : Fields)
  : result (list form_field) :=
  let fields :=
    map (fun n => {| field_name := n; widget_factory := None |})
        (omit ["__parent__"; "__name__"] IPlugin_fields) in
  set_widget_factory "enabled" SingleCheckBoxFieldWidget fields.

(** *** Registrations under the same key *)

#[global] Instance required_spec_eq_dec : EqDecision required_spec.
Proof. solve_decision. Defined.

(** What a registration is filed under: a second registration under the
    same key would replace the first. *)
Definition registration_key {Conn} (a : adapter_config Conn)
  : string * list required_spec * interface :=
  (name a, required a, provides a).

(** ** Vocabulary of the statements *)

(** The bytes of a literal. *)
Definition bytes_of (s : string) : list byte := list_byte_of_string s.

(** Every byte the encoder can write, line breaks apart. *)
Definition digits : list byte :=
  base64.pad :: list_byte_of_string base64.alphabet.

(** An ASCII byte that is not the line break. *)
Definition plain (b : byte) : bool :=
  (Byte.to_N b <? 128)%N && negb (Byte.eqb b base64.newline).

Definition not_newline (b : byte) : bool := negb (Byte.eqb b base64.newline).

(** The order of [str]: [s1 < s2]. *)
Definition str_lt (s1 s2 : string) : Prop := String.compare s1 s2 = Lt.

(** [x] may stand before [y]: the key of [y] is not smaller. *)
Definition key_le (x y : string * pyval) : Prop := String.ltb (fst y) (fst x) = false.

Definition key_lt (x y : string * pyval) : Prop := str_lt (fst x) (fst y).

(** The bytes the photo block encodes: the value itself, or the first
    element of a list value. *)
Definition photo_bytes (v : pyval) : option (list byte) :=
  match v with
  | PBytes b => Some b
  | PList (PBytes b :: _) => Some b
  | _ => None
  end.

(** The value a dictionary holds for a name, under any way of writing
    the name that folds as the name does. *)
Definition found (attrs : CaseInsensitiveDict) (name : string) : option pyval :=
  snd <$> ci_store attrs !! ci_key attrs name.

(** Every item of a store is filed under the folded form of its key. *)
Definition filed (fold : string -> string) (store : gmap string (string * pyval)) : Prop :=
  forall ck kv, store !! ck = Some kv -> fold kv.1 = ck.

(** A photo attribute is well formed when it is absent (or [None]), holds
    [bytes], or holds a list that starts with [bytes]. *)
Definition photo_ok (fold : string -> string) (store : gmap string (string * pyval))
  (name : string) : bool :=
  match store !! fold name with
  | None => true
  | Some kv =>
      match kv.2 with
      | PNone => true
      | v => match photo_bytes v with Some _ => true | None => false end
      end
  end.

(** Both photo attributes of an entry are well formed. *)
Definition photos_ok (attrs : CaseInsensitiveDict) : Prop :=
  photo_ok (ci_key attrs) (ci_store attrs) "jpegPhoto" = true
  /\ photo_ok (ci_key attrs) (ci_store attrs) "thumbnailPhoto" = true.

(** What the photo block raises on the value it finds, if anything. *)
Definition photo_error (found : option pyval) : option exn :=
  match found with
  | None | Some PNone | Some (PBytes _) | Some (PList (PBytes _ :: _)) => None
  | Some (PList []) => Some IndexError
  | Some _ => Some TypeError
  end.

(** The payload of the markup made from photo bytes, and the markup: a
    list of one string. *)
Definition payload_of (b : list byte) : string :=
  string_of_list_byte (base64.encodebytes_bytes b).

Definition image_markup (b : list byte) : pyval :=
  PList [PStr ("<img src=" +:+ String "034"%char
                 ("data:image/jpeg;base64," +:+ payload_of b
                  +:+ String "034"%char " />"))].

(** The store once the block has run on a well-formed attribute. *)
Definition with_markup (fold : string -> string)
  (store : gmap string (string * pyval)) (name : string)
  : gmap string (string * pyval) :=
  match store !! fold name with
  | Some kv =>
      match photo_bytes kv.2 with
      | Some b => <[fold name := (kv.1, image_markup b)]> store
      | None => store
      end
  | None => store
  end.

(** The store of an entry once both photo blocks have run. *)
Definition displayed (attrs : CaseInsensitiveDict) : gmap string (string * pyval) :=
  with_markup (ci_key attrs) (with_markup (ci_key attrs) (ci_store attrs) "jpegPhoto")
    "thumbnailPhoto".

(** The value shown for the attribute written [k] that holds [v]: the
    markup of its photo bytes when [k] folds as one of the photo names
    does, else [v] itself. *)
Definition shown (attrs : CaseInsensitiveDict) (k : string) (v : pyval) : pyval :=
  if decide (ci_key attrs k = ci_key attrs "jpegPhoto"
             \/ ci_key attrs k = ci_key attrs "thumbnailPhoto")
  then match photo_bytes v with Some b => image_markup b | None => v end
  else v.

(** The items listed for an entry, and the mapping the lookup makes of it. *)
Definition listing (attrs : CaseInsensitiveDict) : list (string * pyval) :=
  sorted_by_key (ci_items (displayed attrs)).

Definition entry_value (dn : string) (attrs : CaseInsensitiveDict) : gmap string pyval :=
  <["dn" := PStr dn]>
    (<["attributes" := PList (map (fun kv => PTuple [PStr kv.1; kv.2]) (listing attrs))]> ∅).

(** The value of the lookup, from the rows the directory answered with. *)
Definition entry_of (rows : list ldap_entry_row) : result (gmap string pyval) :=
  match rows with
  | [(dn, attributes)] =>
      attrs <- photo_markup (ci_key attributes) (ci_store attributes) "jpegPhoto" ;;;
      attrs <- photo_markup (ci_key attributes) attrs "thumbnailPhoto" ;;;
      Ok (<["dn" := PStr dn]>
            (<["attributes" :=
                 PList (map item_tuple (sorted_by_key (ci_items attrs)))]> ∅))
  | _ => Ok ∅
  end.

(** The ['dn'] parameter of a request, as the lookup reads it: [None]
    when the request has none. *)
Definition dn_parameter (request : Request) : pyval :=
  match params request !! "dn" with
  | Some dn => PStr dn
  | None => PNone
  end.

(** The directory answers the lookup of a request with [rows]: the
    plug-in gives a connection, the query helper builds the query of the
    lookup and executing it on the connection returns [rows]. *)
Definition answers {Conn Query} (query_class : LDAPQuery_class Conn Query)
  (plugin : LDAPPlugin Conn) (request : Request) (rows : list ldap_entry_row) : Prop :=
  exists conn query,
    get_connection plugin = Ok conn
    /\ LDAPQuery query_class (dn_parameter request) "(objectclass=*)" BASE ALL_ATTRIBUTES
       = Ok query
    /\ execute query_class query conn = Ok rows.

(** What a first read of the property comes to, and the calls it makes. *)
Definition lookup_outcome {Conn Query} (query_class : LDAPQuery_class Conn Query)
  (plugin : LDAPPlugin Conn) (request : Request) : result (gmap string pyval) :=
  conn <- get_connection plugin ;;;
  query <- LDAPQuery query_class (dn_parameter request) "(objectclass=*)"
             BASE ALL_ATTRIBUTES ;;;
  rows <- execute query_class query conn ;;;
  entry_of rows.

Definition lookup_calls {Conn Query} (query_class : LDAPQuery_class Conn Query)
  (plugin : LDAPPlugin Conn) (request : Request) : list (call Conn Query) :=
  GetConnection ::
  match get_connection plugin with
  | Ok conn =>
      match LDAPQuery query_class (dn_parameter request) "(objectclass=*)"
              BASE ALL_ATTRIBUTES with
      | Ok query => [Execute query conn]
      | Raise _ => []
      end
  | Raise _ => []
  end.

(** The lookup returns a value, rather than raising. *)
Definition returns {A} (r : result A) : Prop := exists a, r = Ok a.

Definition log_calls {Conn Query} (cs : list (call Conn Query))
  (st : form_state Conn Query) : form_state Conn Query :=
  {| reified_ldap_entry := reified_ldap_entry st; calls := calls st ++ cs |}.

Definition remember {Conn Query} (val : gmap string pyval) (st : form_state Conn Query)
  : form_state Conn Query :=
  {| reified_ldap_entry := Some val; calls := calls st |}.

(** One display of the page reads the property twice: for the title, then
    for the rows of the table. *)
Definition display {Conn Query} (query_class : LDAPQuery_class Conn Query)
  (plugin : LDAPPlugin Conn) (request : Request) : M Conn Query (pyval * list pyval) :=
  dn <~ ldap_entry_display_form_title_dn query_class plugin request ;;
  values <~ LDAPEntryPropertiesTableValues_values query_class plugin request ;;
  ret (dn, values).

Definition tab_names : list string :=
  ["connection"; "users-schema"; "groups-schema"; "search-settings"].

(** A line of [encodebytes]: its characters and the line break. *)
Definition with_newline (line : list byte) : list byte :=
  line ++ [base64.newline].

(** A list or tuple value of an attribute, as the list it holds. *)
Definition sequence_of (v : pyval) : option (list pyval) :=
  match v with
  | PList l | PTuple l => Some l
  | _ => None
  end.

Definition is_str (v : pyval) : bool :=
  match v with PStr _ => true | _ => false end.

(** The lines [encodebytes] writes, without their line breaks. *)
Definition encoded_lines (s : list byte) : list (list byte) :=
  map (fun i => base64.b64_groups (base64.slice s i (i + base64.MAXBINSIZE)))
      (base64.range_step (length s) base64.MAXBINSIZE).

(** The numbers a sextet can be. *)
Definition sextets : list N := map N.of_nat (seq 0 64).

(** The three bytes of a group as one number of 24 bits. *)
Definition pack (a b c : N) : N :=
  N.lor (N.lor (N.shiftl a 16) (N.shiftl b 8)) c.

(** ** Sample data *)

(** [str.strip()]: the white space of Python at both ends of a string is
    dropped. White space is the ASCII characters 9 to 13 and 28 to 32 and
    the code points U+0085, U+00A0, U+1680, U+2000 to U+200A, U+2028,
    U+2029, U+202F, U+205F and U+3000, here in their UTF-8 encoding. *)
Definition space1 (a : N) : bool :=
  ((9 <=? a) && (a <=? 13) || (28 <=? a) && (a <=? 32))%N.

Definition space2 (a b : N) : bool :=
  ((a =? 194) && ((b =? 133) || (b =? 160)))%N.

Definition space3 (a b c : N) : bool :=
  ((a =? 225) && (b =? 154) && (c =? 128)
   || (a =? 226) && (b =? 128)
      && ((128 <=? c) && (c <=? 138) || (c =? 168) || (c =? 169) || (c =? 175))
   || (a =? 226) && (b =? 129) && (c =? 159)
   || (a =? 227) && (b =? 128) && (c =? 128))%N.

(** White space dropped at the front; [backwards] when the string is read
    from its end, each character with its bytes in reverse. *)
Fixpoint strip_front (backwards : bool) (s : string) : string :=
  match s with
  | String a s1 =>
      if space1 (N_of_ascii a) then strip_front backwards s1
      else
        match s1 with
        | String b s2 =>
            if (if backwards then space2 (N_of_ascii b) (N_of_ascii a)
                else space2 (N_of_ascii a) (N_of_ascii b))
            then strip_front backwards s2
            else
              match s2 with
              | String c s3 =>
                  if (if backwards
                      then space3 (N_of_ascii c) (N_of_ascii b) (N_of_ascii a)
                      else space3 (N_of_ascii a) (N_of_ascii b) (N_of_ascii c))
                  then strip_front backwards s3
                  else s
              | EmptyString => s
              end
        | EmptyString => s
        end
  | EmptyString => EmptyString
  end.

Definition py_strip (s : string) : string :=
  String.rev (strip_front true (String.rev (strip_front false s))).

(** [str.lower()] on the letters of ASCII. *)
Definition ascii_lower (c : ascii) : ascii :=
  let n := N_of_ascii c in
  if ((65 <=? n) && (n <=? 90))%N then ascii_of_N (n + 32) else c.

Fixpoint lower (s : string) : string :=
  match s with
  | String c s' => String (ascii_lower c) (lower s')
  | EmptyString => EmptyString
  end.

(** The folding of the keys of the sample dictionaries: that of ldap3 on
    names written in ASCII, which the names of LDAP attributes are. *)
Definition sample_fold (key : string) : string := lower (py_strip key).

(** The query object of the sample helper. *)
Record sample_query : Type := {
  base_dn : string;
  filter_tmpl : string;
  scope : string;
  attributes : string
}.

(** Modelled from the spec: a stand-in, for the sample data, for the
    class [LDAPQuery] of [pyams_auth_ldap.query], which is not among the
    sources: a helper over a directory that answers every query with the
    same rows. Its constructor calls [strip()] on the base DN and on the
    filter it is given; a base DN that is [None] has no such method, and
    the call raises [AttributeError]. *)
Definition sample_LDAPQuery (rows : list ldap_entry_row)
  : LDAPQuery_class nat sample_query := {|
  LDAPQuery := fun base_dn filter_tmpl scope attributes =>
    match base_dn with
    | PStr dn =>
        Ok {| base_dn := py_strip dn;
              filter_tmpl := py_strip filter_tmpl;
              scope := scope;
              attributes := attributes |}
    | _ => Raise AttributeError
    end;
  execute := fun _ _ => Ok rows
|}.

Definition sample_plugin : LDAPPlugin nat := {|
  get_connection := Ok 1%nat;
  uid_attribute := "uid";
  get_search_results := fun _ => []
|}.

Definition sample_request : Request :=
  {| params := {["dn" := "uid=jdoe,ou=people,dc=example,dc=org"]} |}.

(** A request that names no entry. *)
Definition request_without_dn : Request :=
  {| params := {["form.widgets.query" := "doe"]} |}.

Definition sample_dn : string := "UID=jdoe,OU=People,DC=example,DC=org".

(** An entry whose directory writes the photo attribute in capitals. *)
Definition sample_store : gmap string (string * pyval) :=
  list_to_map [
    ("uid", ("uid", PList [PStr "jdoe"]));
    ("cn", ("cn", PStr "John Doe"));
    ("sn", ("SN", PStr "Doe"));
    ("jpegphoto", ("JPEGPHOTO",
                   PList [PBytes (bytes_of "foob"); PBytes (bytes_of "second")]));
    ("mail", ("mail", PList [PStr "jdoe@example.org"; PStr "john@example.org"]))
  ].

Definition sample_attrs : CaseInsensitiveDict := {|
  ci_key := sample_fold;
  ci_store := sample_store;
  ci_wf := eq_refl;
  ci_photos := eq_refl
|}.

Definition sample_row : ldap_entry_row := (sample_dn, sample_attrs).


(** Entries whose photo the block cannot encode: a text, an empty list. *)
Definition sample_attrs_text : CaseInsensitiveDict := {|
  ci_key := sample_fold;
  ci_store := <["jpegphoto" := ("JPEGPHOTO", PStr "not a photo")]> sample_store;
  ci_wf := eq_refl;
  ci_photos := eq_refl
|}.

Definition sample_attrs_empty : CaseInsensitiveDict := {|
  ci_key := sample_fold;
  ci_store := <["thumbnailphoto" := ("thumbnailPhoto", PList [])]> sample_store;
  ci_wf := eq_refl;
  ci_photos := eq_refl
|}.

(** An entry with a multi-valued attribute that is not text. *)
Definition sample_attrs_binary : CaseInsensitiveDict := {|
  ci_key := sample_fold;
  ci_store := <["mail" := ("mail", PList [PBytes (bytes_of "jdoe@example.org")])]>
                sample_store;
  ci_wf := eq_refl;
  ci_photos := eq_refl
|}.

Definition no_attrs : CaseInsensitiveDict := {|
  ci_key := sample_fold;
  ci_store := ∅;
  ci_wf := eq_refl;
  ci_photos := eq_refl
|}.

(** Directories that answer every query with one entry, with the same
    entry whose photo is a single value, with two entries, with none. *)
Definition answer_one : LDAPQuery_class nat sample_query :=
  sample_LDAPQuery [sample_row].


Definition answer_two : LDAPQuery_class nat sample_query :=
  sample_LDAPQuery [sample_row; ("uid=other,ou=people,dc=example,dc=org", no_attrs)].

Definition answer_none : LDAPQuery_class nat sample_query :=
  sample_LDAPQuery [].

Definition answer_text_photo : LDAPQuery_class nat sample_query :=
  sample_LDAPQuery [(sample_dn, sample_attrs_text)].

Definition answer_empty_photo : LDAPQuery_class nat sample_query :=
  sample_LDAPQuery [(sample_dn, sample_attrs_empty)].

(** The query the sample helper builds for the sample request. *)
Definition sample_lookup_query : sample_query := {|
  base_dn := "uid=jdoe,ou=people,dc=example,dc=org";
  filter_tmpl := "(objectclass=*)";
  scope := "BASE";
  attributes := "*"
|}.

Definition sample_schema : Fields :=
  ["server_uri"; "start_tls"; "bind_dn"; "bind_password"; "bind_mode";
   "base_dn"; "search_scope"; "login_attribute"; "login_query";
   "uid_attribute"; "uid_query"; "title_format"; "mail_attribute";
   "user_extra_attributes";
   "groups_base_dn"; "groups_search_scope"; "group_prefix";
   "group_uid_attribute"; "group_title_format"; "group_members_query_mode";
   "groups_query"; "group_members_attribute"; "user_groups_attribute";
   "group_mail_mode"; "group_replace_expression"; "group_mail_attribute";
   "group_extra_attributes";
   "users_select_query"; "users_search_query";
   "groups_select_query"; "groups_search_query"].

(** The markup of the sample photo: one line of base64 and its line break. *)
Definition sample_markup : pyval :=
  PList [PStr ("<img src=" +:+ String "034"%char
                 ("data:image/jpeg;base64,Zm9vYg==" +:+ String "010"%char
                    (String "034"%char " />")))].

(** A request with one more parameter, and a plug-in that differs from
    the sample in what is not its connection. *)
Definition other_request : Request :=
  {| params := <["form.widgets.query" := "doe"]> (params sample_request) |}.

Definition other_plugin : LDAPPlugin nat := {|
  get_connection := Ok 1%nat;
  uid_attribute := "sAMAccountName";
  get_search_results := fun _ => [sample_row]
|}.

(** * Properties *)

(** ** Test vectors (RFC 4648, section 10) *)

Example b64_f : base64.b64encode (bytes_of "f") = bytes_of "Zg==".
Proof. reflexivity. Qed.
Example b64_fo : base64.b64encode (bytes_of "fo") = bytes_of "Zm8=".
Proof. reflexivity. Qed.
Example b64_foo : base64.b64encode (bytes_of "foo") = bytes_of "Zm9v".
Proof. reflexivity. Qed.
Example b64_foobar : base64.b64encode (bytes_of "foobar") = bytes_of "Zm9vYmFy".
Proof. reflexivity. Qed.
Example encodebytes_empty : base64.encodebytes_bytes [] = [].
Proof. reflexivity. Qed.
Example encodebytes_two_lines :
  base64.encodebytes_bytes (repeat (byte_of_ascii "a"%char) 58)
  = (concat (repeat (bytes_of "YWFh") 19) ++ [base64.newline]
     ++ bytes_of "YQ==" ++ [base64.newline])%list.
Proof. vm_compute. reflexivity. Qed.
Example encodebytes_foob :
  base64.encodebytes_bytes (bytes_of "foob")
  = (bytes_of "Zm9vYg==" ++ [base64.newline])%list.
Proof. reflexivity. Qed.

(** ** The base64 encoding *)

Section Base64Facts.

Import base64.

(** Lists taken three elements at a time. *)
Lemma list_ind3 {A} (P : list A -> Prop) :
  P [] -> (forall a, P [a]) -> (forall a b, P [a; b]) ->
  (forall a b c l, P l -> P (a :: b :: c :: l)) ->
  forall l, P l.
Proof.
  intros H0 H1 H2 H3.
  fix IH 1.
  intros [|a [|b [|c l]]]; [apply H0 | apply H1 | apply H2 | apply H3, IH].
Qed.

Lemma get_In (s : string) : forall n c,
  String.get n s = Some c -> In c (list_ascii_of_string s).
Proof.
  induction s as [|a s IH]; intros n c; simpl; [discriminate|].
  destruct n as [|n]; [intros [= ->]; by left|].
  intros H. right. eauto.
Qed.

Lemma digit_In (i : N) : In (digit i) digits.
Proof.
  unfold digit, digits.
  destruct (String.get (N.to_nat i) alphabet) as [c|] eqn:E; [|by left].
  right. apply get_In in E.
  unfold list_byte_of_string. by apply in_map.
Qed.

Lemma digits_plain : forallb plain digits = true.
Proof. vm_compute. reflexivity. Qed.

Lemma digit_plain (i : N) : plain (digit i) = true.
Proof.
  pose proof digits_plain as H. rewrite forallb_forall in H.
  apply H, digit_In.
Qed.

Lemma b64_groups_plain (l : list byte) : forallb plain (b64_groups l) = true.
Proof.
  induction l as [|a|a b|a b c l IH] using list_ind3.
  - reflexivity.
  - cbn [b64_groups forallb]. unfold sextet. by rewrite !digit_plain.
  - cbn [b64_groups forallb]. unfold sextet. by rewrite !digit_plain.
  - cbn [b64_groups forallb]. unfold sextet. by rewrite !digit_plain, IH.
Qed.

Lemma filter_plain (l : list byte) :
  forallb plain l = true -> List.filter not_newline l = l.
Proof.
  induction l as [|x l IH]; simpl; [done|].
  intros [Hx Hl]%andb_prop. unfold plain in Hx.
  apply andb_prop in Hx as [_ Hx]. unfold not_newline at 1. rewrite Hx.
  by rewrite IH.
Qed.

(** Groups of three bytes are encoded one after the other. *)
Lemma b64_groups_app (k : nat) : forall l1 l2,
  length l1 = (3 * k)%nat ->
  b64_groups (l1 ++ l2) = (b64_groups l1 ++ b64_groups l2)%list.
Proof.
  induction k as [|k IH]; intros l1 l2 Hlen.
  - destruct l1; [done | simpl in Hlen; lia].
  - destruct l1 as [|a [|b [|c l1]]]; simpl in Hlen; try lia.
    change ((a :: b :: c :: l1) ++ l2)%list with (a :: b :: c :: (l1 ++ l2))%list.
    cbn [b64_groups]. rewrite IH by lia. reflexivity.
Qed.

Lemma MAXBINSIZE_eq : MAXBINSIZE = 57%nat.
Proof. reflexivity. Qed.

Lemma range_step_pos (n : nat) :
  (0 < n)%nat ->
  range_step n 57 = 0%nat :: map (fun i => i + 57)%nat (range_step (n - 57) 57).
Proof.
  intros Hn. unfold range_step.
  assert (((n + 57 - 1) / 57 = S ((n - 57 + 57 - 1) / 57))%nat) as ->.
  { destruct (Nat.le_gt_cases 57 n) as [Hge|Hlt].
    - replace (n + 57 - 1)%nat with ((n - 57 + 57 - 1) + 1 * 57)%nat by lia.
      rewrite Nat.div_add by lia. lia.
    - replace (n - 57 + 57 - 1)%nat with 56%nat by lia.
      rewrite (Nat.div_small 56) by lia.
      replace (n + 57 - 1)%nat with ((n - 1) + 1 * 57)%nat by lia.
      rewrite Nat.div_add by lia. rewrite Nat.div_small by lia. lia. }
  cbn [seq map]. f_equal.
  rewrite <- seq_shift, !map_map. apply map_ext. intros k. lia.
Qed.

(** The first line, then the encoding of what follows it. *)
Lemma encodebytes_bytes_unfold (s : list byte) :
  s <> [] ->
  encodebytes_bytes s
  = (b2a_base64 (take 57 s) ++ encodebytes_bytes (drop 57 s))%list.
Proof.
  intros Hs. unfold encodebytes_bytes. rewrite MAXBINSIZE_eq.
  rewrite range_step_pos by (destruct s; [done | simpl; lia]).
  cbn [map concat]. f_equal.
  rewrite length_drop, map_map. f_equal. apply map_ext. intros i.
  unfold slice. rewrite drop_drop.
  replace (i + 57 + 57 - (i + 57))%nat with (i + 57 - i)%nat by lia.
  by replace (57 + i)%nat with (i + 57)%nat by lia.
Qed.

(** Without its line breaks, what [encodebytes] returns is the base64
    encoding of RFC 4648. *)
Lemma encodebytes_bytes_b64encode (s : list byte) :
  List.filter not_newline (encodebytes_bytes s) = b64encode s.
Proof.
  remember (length s) as n eqn:Hn. revert s Hn.
  induction n as [n IH] using lt_wf_ind. intros s Hn.
  destruct (decide (s = [])) as [->|Hs]; [reflexivity|].
  rewrite encodebytes_bytes_unfold by done.
  rewrite List.filter_app.
  rewrite (IH (length (drop 57 s))); [| | reflexivity].
  2:{ subst n. rewrite length_drop. destruct s; [done | cbn [length]; lia]. }
  unfold b2a_base64. rewrite List.filter_app. simpl.
  rewrite filter_plain by apply b64_groups_plain.
  rewrite app_nil_r. unfold b64encode.
  destruct (Nat.le_gt_cases 57 (length s)) as [Hge|Hlt].
  - rewrite <- (b64_groups_app 19); [by rewrite take_drop|].
    rewrite length_take. lia.
  - rewrite drop_ge, take_ge by lia. simpl. by rewrite app_nil_r.
Qed.

Lemma encodebytes_bytes_ascii (s : list byte) :
  forallb (fun b => (Byte.to_N b <? 128)%N) (encodebytes_bytes s) = true.
Proof.
  remember (length s) as n eqn:Hn. revert s Hn.
  induction n as [n IH] using lt_wf_ind. intros s Hn.
  destruct (decide (s = [])) as [->|Hs]; [reflexivity|].
  rewrite encodebytes_bytes_unfold by done.
  rewrite !forallb_app. rewrite (IH (length (drop 57 s))); [| | reflexivity].
  2:{ subst n. rewrite length_drop. destruct s; [done | cbn [length]; lia]. }
  unfold b2a_base64. rewrite forallb_app. cbn [forallb].
  change (to_N newline <? 128)%N with true.
  rewrite !andb_true_r. apply forallb_forall. intros x Hx.
  pose proof (b64_groups_plain (take 57 s)) as H.
  rewrite forallb_forall in H. specialize (H x Hx).
  unfold plain in H. by apply andb_prop in H as [H _].
Qed.

End Base64Facts.

(** ** Decoding *)

Lemma utf8_valid_ascii (l : list N) :
  forallb (fun b => (b <? 128)%N) l = true -> utf8_valid_N l = true.
Proof.
  induction l as [|b l IH]; [done|].
  cbn [forallb utf8_valid_N]. intros [Hb Hl]%andb_prop.
  rewrite Hb. auto.
Qed.

Lemma forallb_map_compose {A B} (f : B -> bool) (g : A -> B) (l : list A) :
  forallb f (map g l) = forallb (fun x => f (g x)) l.
Proof. induction l as [|x l IH]; simpl; [done | by rewrite IH]. Qed.

(** What [encodebytes] returns always decodes, to the same characters. *)
Lemma decode_encodebytes (s : list byte) :
  decode (base64.encodebytes_bytes s)
  = Ok (string_of_list_byte (base64.encodebytes_bytes s)).
Proof.
  unfold decode, utf8_valid. rewrite utf8_valid_ascii; [done|].
  rewrite forallb_map_compose. apply encodebytes_bytes_ascii.
Qed.

(** ** The order of strings and the sort *)

Lemma str_lt_trans (a b c : string) : str_lt a b -> str_lt b c -> str_lt a c.
Proof.
  pose proof String_as_OT.lt_strorder as [_ Htrans].
  exact (Htrans a b c).
Qed.

Lemma str_lt_irrefl (a : string) : ~ str_lt a a.
Proof.
  pose proof String_as_OT.lt_strorder as [Hirr _].
  exact (Hirr a).
Qed.

Lemma ltb_str_lt (a b : string) : String.ltb a b = true <-> str_lt a b.
Proof.
  unfold String.ltb, str_lt. destruct (String.compare a b); split; congruence.
Qed.

(** Either [a < b], or [a = b], or [b < a]. *)
Lemma str_trichotomy (a b : string) : str_lt a b \/ a = b \/ str_lt b a.
Proof.
  unfold str_lt. destruct (String.compare a b) eqn:E.
  - right; left. by apply String.compare_eq_iff.
  - by left.
  - right; right. rewrite String.compare_antisym, E. reflexivity.
Qed.

Lemma key_le_cases (x y : string * pyval) : key_le x y <-> key_lt x y \/ fst x = fst y.
Proof.
  unfold key_le, key_lt. split.
  - intros H. destruct (str_trichotomy (fst x) (fst y)) as [?|[?|Hlt]]; auto.
    apply ltb_str_lt in Hlt. congruence.
  - intros [Hlt | Heq].
    + destruct (String.ltb (fst y) (fst x)) eqn:E; [|done].
      apply ltb_str_lt in E. destruct (str_lt_irrefl (fst x)).
      by apply str_lt_trans with (fst y).
    + rewrite Heq. destruct (String.ltb (fst y) (fst y)) eqn:E; [|done].
      apply ltb_str_lt in E. by destruct (str_lt_irrefl (fst y)).
Qed.

Lemma key_le_trans (x y z : string * pyval) : key_le x y -> key_le y z -> key_le x z.
Proof.
  rewrite !key_le_cases. unfold key_lt.
  intros [H1|H1] [H2|H2].
  - left. by apply str_lt_trans with (fst y).
  - left. by rewrite <- H2.
  - left. by rewrite H1.
  - right. congruence.
Qed.

Lemma insert_by_key_perm (x : string * pyval) (l : list (string * pyval)) :
  Permutation (insert_by_key x l) (x :: l).
Proof.
  induction l as [|y l IH]; simpl; [done|].
  destruct (String.ltb (fst y) (fst x)); [|done].
  rewrite IH. apply perm_swap.
Qed.

Lemma sorted_by_key_perm (l : list (string * pyval)) :
  Permutation (sorted_by_key l) l.
Proof.
  induction l as [|x l IH]; simpl; [done|].
  rewrite insert_by_key_perm. by constructor.
Qed.

Lemma insert_by_key_HdRel (a x : string * pyval) (l : list (string * pyval)) :
  key_le a x -> HdRel key_le a l -> HdRel key_le a (insert_by_key x l).
Proof.
  intros Hax Hal. destruct l as [|y l]; simpl; [by constructor|].
  destruct (String.ltb (fst y) (fst x)); constructor; [|done].
  by inversion Hal.
Qed.

Lemma insert_by_key_sorted (x : string * pyval) (l : list (string * pyval)) :
  Sorted key_le l -> Sorted key_le (insert_by_key x l).
Proof.
  induction 1 as [|y l Hl IH Hhd]; simpl.
  - repeat constructor.
  - destruct (String.ltb (fst y) (fst x)) eqn:E.
    + constructor; [done|]. apply insert_by_key_HdRel; [|done].
      apply key_le_cases. left. by apply ltb_str_lt.
    + constructor; [by constructor|]. by constructor.
Qed.

Lemma sorted_by_key_sorted (l : list (string * pyval)) :
  Sorted key_le (sorted_by_key l).
Proof.
  induction l as [|x l IH]; simpl; [constructor|].
  by apply insert_by_key_sorted.
Qed.

(** With no key twice, the sorted items are in strictly ascending order. *)
Lemma sorted_by_key_strict (l : list (string * pyval)) :
  NoDup (map fst l) -> StronglySorted key_lt (sorted_by_key l).
Proof.
  intros Hnd.
  assert (NoDup (map fst (sorted_by_key l))) as Hnd'.
  { assert (Permutation (map fst (sorted_by_key l)) (map fst l)) as Hp
      by apply Permutation_map, sorted_by_key_perm.
    by rewrite Hp. }
  pose proof (sorted_by_key_sorted l) as Hs.
  apply Sorted_StronglySorted in Hs; [|intros x y z; apply key_le_trans].
  induction Hs as [|x l' Hs IH Hall]; [constructor|].
  simpl in Hnd'. apply NoDup_cons in Hnd' as [Hx Hnd'].
  constructor; [by apply IH|].
  rewrite List.Forall_forall in *. intros y Hy.
  destruct (proj1 (key_le_cases x y) (Hall y Hy)) as [?|Heq]; [done|].
  destruct Hx. rewrite Heq. apply list_elem_of_In. by apply in_map.
Qed.

(** The order in which a dictionary lists its items does not show in the
    sorted list: two listings of the same items sort to the same list. *)
Lemma strict_sorted_unique (l1 l2 : list (string * pyval)) :
  StronglySorted key_lt l1 -> StronglySorted key_lt l2 ->
  Permutation l1 l2 -> l1 = l2.
Proof.
  intros H1. revert l2. induction H1 as [|x l1 H1 IH Hx]; intros l2 H2 Hp.
  - by apply Permutation_nil in Hp.
  - destruct H2 as [|y l2 H2 Hy]; [by apply Permutation_sym, Permutation_nil in Hp|].
    rewrite List.Forall_forall in Hx, Hy.
    assert (x = y) as ->.
    { assert (In x (y :: l2)) as [->|Hin] by (eapply Permutation_in; [exact Hp | by left]);
        [done|].
      assert (In y (x :: l1)) as [->|Hin']
          by (eapply Permutation_in; [symmetry; exact Hp | by left]); [done|].
      destruct (str_lt_irrefl (fst x)).
      apply str_lt_trans with (fst y); [apply (Hx y Hin') | apply (Hy x Hin)]. }
    f_equal. apply IH; [done|]. by apply Permutation_cons_inv in Hp.
Qed.

Lemma sorted_by_key_order_free (l1 l2 : list (string * pyval)) :
  NoDup (map fst l1) -> Permutation l1 l2 -> sorted_by_key l1 = sorted_by_key l2.
Proof.
  intros Hnd Hp. apply strict_sorted_unique.
  - by apply sorted_by_key_strict.
  - apply sorted_by_key_strict.
    assert (Permutation (map fst l1) (map fst l2)) as Hp'
      by by apply Permutation_map.
    by rewrite <- Hp'.
  - by rewrite !sorted_by_key_perm.
Qed.

(** ** The lines of the payload *)

Lemma length_b64_groups (l : list byte) :
  length (base64.b64_groups l) = (4 * ((length l + 2) / 3))%nat.
Proof.
  induction l as [|a|a b|a b c l IH] using list_ind3; try reflexivity.
  cbn [base64.b64_groups length]. rewrite IH.
  replace (S (S (S (length l))) + 2)%nat with ((length l + 2) + 1 * 3)%nat by lia.
  rewrite Nat.div_add by lia. lia.
Qed.

Lemma b64_groups_no_newline (l : list byte) : base64.newline ∉ base64.b64_groups l.
Proof.
  intros Hin. apply list_elem_of_In in Hin.
  pose proof (b64_groups_plain l) as H. rewrite forallb_forall in H.
  specialize (H _ Hin). vm_compute in H. discriminate H.
Qed.

Lemma encoded_lines_nil : encoded_lines [] = [].
Proof. reflexivity. Qed.

Lemma encoded_lines_unfold (s : list byte) :
  s <> [] ->
  encoded_lines s = base64.b64_groups (take 57 s) :: encoded_lines (drop 57 s).
Proof.
  intros Hs. unfold encoded_lines. rewrite MAXBINSIZE_eq.
  rewrite range_step_pos by (destruct s; [done | simpl; lia]).
  cbn [map]. f_equal.
  rewrite length_drop, map_map. apply map_ext. intros i.
  unfold base64.slice. rewrite drop_drop.
  replace (i + 57 + 57 - (i + 57))%nat with (i + 57 - i)%nat by lia.
  by replace (57 + i)%nat with (i + 57)%nat by lia.
Qed.

Lemma encodebytes_bytes_lines (s : list byte) :
  base64.encodebytes_bytes s = concat (map with_newline (encoded_lines s)).
Proof.
  unfold base64.encodebytes_bytes, encoded_lines. by rewrite map_map.
Qed.

Lemma encoded_lines_facts (s : list byte) :
  concat (encoded_lines s) = base64.b64encode s
  /\ length (encoded_lines s) = ((length s + 56) / 57)%nat
  /\ Forall (fun line => (0 < length line <= 76)%nat /\ base64.newline ∉ line)
            (encoded_lines s)
  /\ Forall (fun line => length line = 76%nat) (removelast (encoded_lines s)).
Proof.
  remember (length s) as n eqn:Hn. revert s Hn.
  induction n as [n IH] using lt_wf_ind. intros s Hn.
  destruct (decide (s = [])) as [->|Hs].
  { subst n. repeat split; constructor. }
  assert (0 < length s)%nat as Hpos by (destruct s; [done | simpl; lia]).
  destruct (IH (length (drop 57 s))) with (s := drop 57 s)
    as (Hcat & Hlen & Hall & Hfull); [rewrite length_drop; lia | done |].
  rewrite encoded_lines_unfold by done.
  assert (length (base64.b64_groups (take 57 s))
          = (4 * ((Nat.min 57 (length s) + 2) / 3))%nat) as Hfirst.
  { by rewrite length_b64_groups, length_take. }
  split; [|split; [|split]].
  - cbn [concat]. rewrite Hcat. unfold base64.b64encode.
    destruct (Nat.le_gt_cases 57 (length s)) as [Hge|Hlt].
    + rewrite <- (b64_groups_app 19); [by rewrite take_drop|].
      rewrite length_take. lia.
    + rewrite drop_ge, take_ge by lia. simpl. by rewrite app_nil_r.
  - cbn [length]. rewrite Hlen, length_drop. subst n.
    destruct (Nat.le_gt_cases 57 (length s)) as [Hge|Hlt].
    + replace (length s + 56)%nat with ((length s - 57 + 56) + 1 * 57)%nat by lia.
      rewrite Nat.div_add by lia. lia.
    + replace (length s - 57 + 56)%nat with 56%nat by lia.
      rewrite (Nat.div_small 56) by lia.
      replace (length s + 56)%nat with ((length s - 1) + 1 * 57)%nat by lia.
      rewrite Nat.div_add by lia. rewrite Nat.div_small by lia. lia.
  - constructor; [|done]. split; [|apply b64_groups_no_newline].
    rewrite Hfirst.
    assert (1 <= (Nat.min 57 (length s) + 2) / 3 < 20)%nat; [|lia].
    split.
    + apply Nat.div_le_lower_bound; lia.
    + apply Nat.Div0.div_lt_upper_bound; lia.
  - destruct (encoded_lines (drop 57 s)) as [|line lines] eqn:Hlines.
    + constructor.
    + change (removelast (?x :: line :: lines)) with (x :: removelast (line :: lines)).
      constructor; [|done].
      assert (57 < length s)%nat as Hlong.
      { destruct (Nat.le_gt_cases (length s) 57) as [Hle|]; [|done].
        rewrite drop_ge in Hlines by lia. discriminate. }
      rewrite Hfirst. by replace (Nat.min 57 (length s)) with 57%nat by lia.
Qed.

(** ** The case-insensitive dictionary *)

Lemma ci_wf_filed (d : CaseInsensitiveDict) : filed (ci_key d) (ci_store d).
Proof.
  intros ck kv H. pose proof (ci_wf d) as Hwf.
  rewrite forallb_forall in Hwf. specialize (Hwf (ck, kv)).
  apply String.eqb_eq, Hwf, list_elem_of_In. by apply elem_of_map_to_list.
Qed.

Lemma ci_photos_ne (d : CaseInsensitiveDict) :
  ci_key d "jpegPhoto" <> ci_key d "thumbnailPhoto".
Proof. apply String.eqb_neq, ci_photos. Qed.

Lemma ci_items_elem fold (store : gmap string (string * pyval)) (k : string) (v : pyval) :
  filed fold store ->
  (k, v) ∈ ci_items store <-> store !! fold k = Some (k, v).
Proof.
  intros Hf. unfold ci_items. rewrite list_elem_of_In, in_map_iff. split.
  - intros ([ck kv] & Heq & Hin). simpl in Heq. subst kv.
    apply list_elem_of_In, elem_of_map_to_list in Hin.
    pose proof (Hf ck (k, v) Hin) as E. simpl in E. by rewrite E.
  - intros H. exists (fold k, (k, v)). split; [done|].
    by apply list_elem_of_In, elem_of_map_to_list.
Qed.

Lemma ci_items_NoDup fold (store : gmap string (string * pyval)) :
  filed fold store -> NoDup (map fst (ci_items store)).
Proof.
  intros Hf. unfold ci_items.
  change (NoDup ((fun e : string * (string * pyval) => e.2.1) <$> map_to_list store))
    || (rewrite map_map;
        change (NoDup ((fun e : string * (string * pyval) => e.2.1) <$> map_to_list store))).
  apply NoDup_fmap_2_strong; [|apply NoDup_map_to_list].
  intros [ck kv] [ck' kv'] Hin Hin' Heq. simpl in Heq.
  apply elem_of_map_to_list in Hin, Hin'.
  assert (ck = ck') as <- by (rewrite <- (Hf _ _ Hin), <- (Hf _ _ Hin'); by f_equal).
  congruence.
Qed.

Lemma ci_setitem_filed fold (store : gmap string (string * pyval)) key item :
  filed fold store -> filed fold (ci_setitem fold key item store).
Proof.
  intros Hf ck kv. unfold ci_setitem.
  destruct (store !! fold key) as [kv0|] eqn:H0.
  - destruct (decide (ck = fold key)) as [->|Hne].
    + rewrite lookup_insert_eq. intros [= <-]. simpl. by apply Hf in H0.
    + rewrite lookup_insert_ne by done. apply Hf.
  - destruct (decide (ck = fold key)) as [->|Hne].
    + rewrite lookup_insert_eq. by intros [= <-].
    + rewrite lookup_insert_ne by done. apply Hf.
Qed.

(** ** The photo block *)

Lemma photo_markup_bytes fold (store : gmap string (string * pyval)) (name : string)
  kv b :
  store !! fold name = Some kv -> photo_bytes kv.2 = Some b ->
  photo_markup fold store name = Ok (<[fold name := (kv.1, image_markup b)]> store).
Proof.
  intros Hv Hb. unfold photo_markup, ci_lookup. rewrite Hv.
  destruct kv as [k v]. simpl in *.
  destruct v as [| | | b' | [|[] l] | ]; try discriminate; simpl in Hb;
    injection Hb as ->; cbn [is_list getitem0 py_iter rbind base64.encodebytes];
    rewrite decode_encodebytes; cbn [rbind]; unfold ci_setitem; rewrite Hv;
    reflexivity.
Qed.

Lemma photo_markup_outcome fold (store : gmap string (string * pyval)) (name : string) :
  photo_markup fold store name
  = match photo_error (snd <$> store !! fold name) with
    | Some e => Raise e
    | None => Ok (with_markup fold store name)
    end.
Proof.
  destruct (store !! fold name) as [[k v]|] eqn:Hv; cbn [fmap option_fmap option_map].
  - destruct (photo_bytes v) as [b|] eqn:Hb.
    + rewrite (photo_markup_bytes fold store name (k, v) b Hv Hb).
      unfold with_markup. rewrite Hv. cbn [snd fst]. rewrite Hb.
      destruct v as [| | | b' | [|[] l] | ]; try discriminate; reflexivity.
    + unfold photo_markup, ci_lookup, with_markup. rewrite Hv. cbn [snd]. rewrite Hb.
      destruct v as [| z | s | b' | [|x l] | l]; try discriminate; try reflexivity.
      destruct x; try discriminate; reflexivity.
  - unfold photo_markup, ci_lookup, with_markup. by rewrite Hv.
Qed.

Lemma photo_ok_error fold (store : gmap string (string * pyval)) (name : string) :
  photo_ok fold store name = true <-> photo_error (snd <$> store !! fold name) = None.
Proof.
  unfold photo_ok.
  destruct (store !! fold name) as [[k v]|]; cbn [fmap option_fmap option_map snd];
    [|done].
  destruct v as [| z | s | b | [|x l] | l]; try done.
  destruct x; done.
Qed.

Lemma photo_error_kind (found : option pyval) (e : exn) :
  photo_error found = Some e -> e = IndexError \/ e = TypeError.
Proof.
  destruct found as [v|]; [|discriminate].
  destruct v as [| z | s | b | [|x l] | l]; simpl; try discriminate;
    try (intros [= <-]; auto).
  destruct x; try discriminate; intros [= <-]; auto.
Qed.

Lemma with_markup_lookup_ne fold (store : gmap string (string * pyval))
  (name ck : string) :
  ck <> fold name -> with_markup fold store name !! ck = store !! ck.
Proof.
  intros Hk. unfold with_markup.
  destruct (store !! fold name) as [kv|]; [|done].
  destruct (photo_bytes kv.2); [|done]. by rewrite lookup_insert_ne.
Qed.

Lemma with_markup_lookup fold (store : gmap string (string * pyval)) (name : string) :
  with_markup fold store name !! fold name
  = (fun kv => (kv.1, match photo_bytes kv.2 with
                      | Some b => image_markup b
                      | None => kv.2
                      end)) <$> store !! fold name.
Proof.
  unfold with_markup.
  destruct (store !! fold name) as [[k v]|] eqn:Hv; cbn [fmap option_fmap option_map];
    [|done].
  cbn [fst snd]. destruct (photo_bytes v); [apply lookup_insert_eq | done].
Qed.

Lemma displayed_lookup (attrs : CaseInsensitiveDict) (ck : string) :
  displayed attrs !! ck
  = (fun kv => (kv.1, shown attrs kv.1 kv.2)) <$> ci_store attrs !! ck.
Proof.
  pose proof (ci_wf_filed attrs) as Hf. pose proof (ci_photos_ne attrs) as Hne.
  unfold displayed.
  destruct (decide (ck = ci_key attrs "thumbnailPhoto")) as [->|Ht].
  - rewrite with_markup_lookup, with_markup_lookup_ne by done.
    destruct (ci_store attrs !! ci_key attrs "thumbnailPhoto") as [[k v]|] eqn:Hv;
      cbn [fmap option_fmap option_map]; [|done].
    cbn [fst snd]. unfold shown. apply Hf in Hv. simpl in Hv.
    rewrite decide_True by (by right). done.
  - rewrite with_markup_lookup_ne by done.
    destruct (decide (ck = ci_key attrs "jpegPhoto")) as [->|Hj].
    + rewrite with_markup_lookup.
      destruct (ci_store attrs !! ci_key attrs "jpegPhoto") as [[k v]|] eqn:Hv;
        cbn [fmap option_fmap option_map]; [|done].
      cbn [fst snd]. unfold shown. apply Hf in Hv. simpl in Hv.
      rewrite decide_True by (by left). done.
    + rewrite with_markup_lookup_ne by done.
      destruct (ci_store attrs !! ck) as [[k v]|] eqn:Hv;
        cbn [fmap option_fmap option_map]; [|done].
      cbn [fst snd]. unfold shown. apply Hf in Hv. simpl in Hv.
      rewrite decide_False; [done|]. intros [?|?]; congruence.
Qed.

Lemma displayed_filed (attrs : CaseInsensitiveDict) :
  filed (ci_key attrs) (displayed attrs).
Proof.
  intros ck kv. rewrite displayed_lookup.
  destruct (ci_store attrs !! ck) as [kv0|] eqn:Hv; cbn [fmap option_fmap option_map];
    [|done].
  intros [= <-]. simpl. by apply ci_wf_filed in Hv.
Qed.

(** The items of the displayed store, in the order of the sort. *)
Lemma listing_elem (attrs : CaseInsensitiveDict) (k : string) (v : pyval) :
  (k, v) ∈ listing attrs
  <-> exists v0, ci_store attrs !! ci_key attrs k = Some (k, v0) /\ v = shown attrs k v0.
Proof.
  unfold listing. rewrite (sorted_by_key_perm (ci_items _)).
  rewrite (ci_items_elem (ci_key attrs)) by apply displayed_filed.
  rewrite displayed_lookup.
  destruct (ci_store attrs !! ci_key attrs k) as [[k0 v0]|];
    cbn [fmap option_fmap option_map].
  - cbn [fst snd]. split.
    + intros [= -> <-]. by exists v0.
    + intros (v1 & [= -> ->] & ->). done.
  - split; [done | by intros (? & ? & _)].
Qed.

Lemma listing_strict (attrs : CaseInsensitiveDict) :
  StronglySorted key_lt (listing attrs).
Proof.
  apply sorted_by_key_strict, (ci_items_NoDup (ci_key attrs)), displayed_filed.
Qed.


Lemma shown_photo (attrs : CaseInsensitiveDict) (name k : string) (v : pyval) b :
  name = "jpegPhoto" \/ name = "thumbnailPhoto" ->
  ci_store attrs !! ci_key attrs name = Some (k, v) ->
  photo_bytes v = Some b ->
  shown attrs k v = image_markup b.
Proof.
  intros Hname Hv Hb. unfold shown. apply ci_wf_filed in Hv. simpl in Hv.
  rewrite decide_True, Hb; [done|]. destruct Hname as [-> | ->]; auto.
Qed.

(** ** The entry-detail lookup *)

Lemma entry_of_outcome dn (attrs : CaseInsensitiveDict) :
  entry_of [(dn, attrs)]
  = match photo_error (found attrs "jpegPhoto") with
    | Some e => Raise e
    | None =>
        match photo_error (found attrs "thumbnailPhoto") with
        | Some e => Raise e
        | None => Ok (entry_value dn attrs)
        end
    end.
Proof.
  unfold entry_of, found. rewrite photo_markup_outcome.
  destruct (photo_error (snd <$> ci_store attrs !! ci_key attrs "jpegPhoto")); [done|].
  cbn [rbind]. rewrite photo_markup_outcome.
  rewrite with_markup_lookup_ne by (apply not_eq_sym, ci_photos_ne).
  by destruct (photo_error (snd <$> ci_store attrs !! ci_key attrs "thumbnailPhoto")).
Qed.

Lemma photos_ok_error (attrs : CaseInsensitiveDict) :
  photos_ok attrs
  <-> photo_error (found attrs "jpegPhoto") = None
      /\ photo_error (found attrs "thumbnailPhoto") = None.
Proof. unfold photos_ok, found. by rewrite !photo_ok_error. Qed.

Lemma entry_of_ok dn (attrs : CaseInsensitiveDict) :
  photos_ok attrs -> entry_of [(dn, attrs)] = Ok (entry_value dn attrs).
Proof.
  intros [Hj Ht]%photos_ok_error. by rewrite entry_of_outcome, Hj, Ht.
Qed.

Lemma entry_of_value dn (attrs : CaseInsensitiveDict) m :
  entry_of [(dn, attrs)] = Ok m -> photos_ok attrs /\ m = entry_value dn attrs.
Proof.
  rewrite entry_of_outcome, photos_ok_error.
  destruct (photo_error (found attrs "jpegPhoto")); [discriminate|].
  destruct (photo_error (found attrs "thumbnailPhoto")); [discriminate|].
  by intros [= <-].
Qed.

Lemma entry_of_returns dn (attrs : CaseInsensitiveDict) :
  returns (entry_of [(dn, attrs)]) <-> photos_ok attrs.
Proof.
  split.
  - intros [m Hm]. by apply entry_of_value in Hm as [? _].
  - intros H. eexists. by apply entry_of_ok.
Qed.

Lemma entry_of_raises dn (attrs : CaseInsensitiveDict) :
  ~ photos_ok attrs ->
  exists e, entry_of [(dn, attrs)] = Raise e /\ (e = IndexError \/ e = TypeError).
Proof.
  rewrite entry_of_outcome, photos_ok_error. intros Hnot.
  destruct (photo_error (found attrs "jpegPhoto")) as [e|] eqn:Hj.
  - exists e. split; [done | by apply photo_error_kind in Hj].
  - destruct (photo_error (found attrs "thumbnailPhoto")) as [e|] eqn:Ht.
    + exists e. split; [done | by apply photo_error_kind in Ht].
    + by destruct Hnot.
Qed.

Lemma entry_of_not_one (rows : list ldap_entry_row) :
  length rows <> 1%nat -> entry_of rows = Ok ∅.
Proof. destruct rows as [|[dn attrs] [|row' rows']]; simpl; congruence. Qed.

Lemma entry_value_attributes dn (attrs : CaseInsensitiveDict) :
  entry_value dn attrs !! "attributes"
  = Some (PList (map (fun kv => PTuple [PStr kv.1; kv.2]) (listing attrs))).
Proof. unfold entry_value. rewrite lookup_insert_ne by done. apply lookup_insert_eq. Qed.

Lemma tuple_listed (items : list (string * pyval)) (k : string) (v : pyval) :
  PTuple [PStr k; v] ∈ map (fun kv => PTuple [PStr kv.1; kv.2]) items <-> (k, v) ∈ items.
Proof.
  rewrite !list_elem_of_In, in_map_iff. split.
  - intros ([k' v'] & [= -> ->] & Hin). done.
  - intros Hin. by exists (k, v).
Qed.

Lemma ldap_entry_getter_run {Conn Query} (query_class : LDAPQuery_class Conn Query)
  (plugin : LDAPPlugin Conn) (request : Request) (st : form_state Conn Query) :
  ldap_entry_getter query_class plugin request st
  = (lookup_outcome query_class plugin request,
     log_calls (lookup_calls query_class plugin request) st).
Proof.
  unfold ldap_entry_getter, lookup_outcome, lookup_calls, call_get_connection,
    call_execute, bind, ret, record_call, lift, log_calls.
  change (params_get request "dn") with (dn_parameter request).
  cbn [fst snd reified_ldap_entry calls].
  destruct (get_connection plugin) as [conn|e]; cbn [rbind]; [|done].
  destruct (LDAPQuery query_class _ _ _ _) as [query|e]; cbn [rbind]; [|done].
  rewrite <- app_assoc. cbn [app].
  destruct (execute query_class query conn) as [rows|e]; cbn [rbind]; [|done].
  unfold entry_of.
  destruct rows as [|[dn attrs] [|row' rows']]; cbn; try reflexivity.
  destruct (photo_markup _ _ "jpegPhoto") as [attrs1|e]; cbn; [|reflexivity].
  destruct (photo_markup _ attrs1 "thumbnailPhoto") as [attrs2|e]; cbn; reflexivity.
Qed.

(** A first read runs the getter and keeps its value; a raise keeps nothing. *)
Lemma ldap_entry_first_read {Conn Query} (query_class : LDAPQuery_class Conn Query)
  (plugin : LDAPPlugin Conn) (request : Request) (st : form_state Conn Query) :
  reified_ldap_entry st = None ->
  ldap_entry query_class plugin request st
  = let st' := log_calls (lookup_calls query_class plugin request) st in
    match lookup_outcome query_class plugin request with
    | Ok val => (Ok val, remember val st')
    | Raise e => (Raise e, st')
    end.
Proof.
  intros Hnone. unfold ldap_entry, reify. rewrite Hnone, ldap_entry_getter_run.
  by destruct (lookup_outcome _ _ _).
Qed.

(** A later read returns the stored value and calls nothing. *)
Lemma ldap_entry_later_read {Conn Query} (query_class : LDAPQuery_class Conn Query)
  (plugin : LDAPPlugin Conn) (request : Request) (st : form_state Conn Query) val :
  reified_ldap_entry st = Some val ->
  ldap_entry query_class plugin request st = (Ok val, st).
Proof. intros Hsome. unfold ldap_entry, reify. by rewrite Hsome. Qed.

Lemma answers_outcome {Conn Query} (query_class : LDAPQuery_class Conn Query)
  (plugin : LDAPPlugin Conn) (request : Request) (rows : list ldap_entry_row) :
  answers query_class plugin request rows ->
  lookup_outcome query_class plugin request = entry_of rows.
Proof.
  intros (conn & query & Hc & Hq & He). unfold lookup_outcome.
  rewrite Hc. cbn [rbind]. rewrite Hq. cbn [rbind]. by rewrite He.
Qed.

Lemma ldap_entry_first_value {Conn Query} (query_class : LDAPQuery_class Conn Query)
  (plugin : LDAPPlugin Conn) (request : Request) (st : form_state Conn Query)
  (rows : list ldap_entry_row) :
  reified_ldap_entry st = None ->
  answers query_class plugin request rows ->
  (ldap_entry query_class plugin request st).1 = entry_of rows.
Proof.
  intros Hnone Hrows.
  rewrite (ldap_entry_first_read query_class plugin request st Hnone).
  rewrite (answers_outcome _ _ _ _ Hrows). by destruct (entry_of _).
Qed.

(** C1. When the directory answers the entry-detail lookup with no entry
    or with more than one, [ldap_entry] is the empty mapping and the
    values of the entry-properties table are no row at all, whether the
    table is the first reader of the property or a later one. *)
Theorem ldap_entry_not_found {Conn Query} (query_class : LDAPQuery_class Conn Query)
  (plugin : LDAPPlugin Conn) (request : Request) (st : form_state Conn Query)
  (rows : list ldap_entry_row) :
  reified_ldap_entry st = None ->
  answers query_class plugin request rows ->
  length rows <> 1%nat ->
  (ldap_entry query_class plugin request st).1 = Ok ∅
  /\ (LDAPEntryPropertiesTableValues_values query_class plugin request st).1 = Ok []
  /\ (LDAPEntryPropertiesTableValues_values query_class plugin request
        (ldap_entry query_class plugin request st).2).1 = Ok [].
Proof.
  intros Hnone Hrows Hlen.
  pose proof (entry_of_not_one rows Hlen) as Hentry.
  unfold LDAPEntryPropertiesTableValues_values, bind, lift.
  rewrite (ldap_entry_first_read query_class plugin request st Hnone).
  rewrite (answers_outcome _ _ _ _ Hrows), Hentry.
  cbn [fst snd]. split; [reflexivity|]. split; [reflexivity|].
  by rewrite (ldap_entry_later_read query_class plugin request _ ∅).
Qed.

(** C2, for a request that names an entry. When the plug-in gives its
    connection and the request has a ['dn'] parameter from which the
    query helper builds the query - a search of scope [BASE] on that
    parameter, with the filter that any object class satisfies, for all
    attributes - the lookup asks for the connection and calls [execute]
    on that query with it, once, and calls nothing else; a whole display,
    which reads the property for the title and again for the table, makes
    the same two calls and no more. When the request has no ['dn']
    parameter the helper is given [None] for the base DN, and when it
    raises, the lookup raises the same and [execute] is not called. *)
Theorem ldap_entry_one_query {Conn Query} (query_class : LDAPQuery_class Conn Query)
  (plugin : LDAPPlugin Conn) (request : Request) (conn : Conn) :
  get_connection plugin = Ok conn ->
  (forall dn query,
     params request !! "dn" = Some dn ->
     LDAPQuery query_class (PStr dn) "(objectclass=*)" BASE ALL_ATTRIBUTES = Ok query ->
     calls (ldap_entry query_class plugin request fresh).2
       = [GetConnection; Execute query conn]
     /\ calls (display query_class plugin request fresh).2
       = [GetConnection; Execute query conn])
  /\ (forall e,
        params request !! "dn" = None ->
        LDAPQuery query_class PNone "(objectclass=*)" BASE ALL_ATTRIBUTES = Raise e ->
        ldap_entry query_class plugin request fresh
          = (Raise e, {| reified_ldap_entry := None; calls := [GetConnection] |})
        /\ display query_class plugin request fresh
          = (Raise e, {| reified_ldap_entry := None; calls := [GetConnection] |})).
Proof.
  intros Hconn. split.
  - intros dn query Hdn Hquery.
    assert (lookup_calls query_class plugin request = [GetConnection; Execute query conn])
      as Hcalls.
    { unfold lookup_calls, dn_parameter. by rewrite Hconn, Hdn, Hquery. }
    unfold display, ldap_entry_display_form_title_dn,
      LDAPEntryPropertiesTableValues_values, bind, ret, lift.
    rewrite (ldap_entry_first_read query_class plugin request fresh eq_refl).
    cbv zeta. rewrite Hcalls.
    destruct (lookup_outcome _ _ _) as [val|e]; cbn [fst snd]; [|done].
    split; [done|].
    rewrite (ldap_entry_later_read query_class plugin request (remember val _) val eq_refl).
    by destruct (py_iter _).
  - intros e Hdn Hquery.
    assert (lookup_calls query_class plugin request = [GetConnection]) as Hcalls.
    { unfold lookup_calls, dn_parameter. by rewrite Hconn, Hdn, Hquery. }
    assert (lookup_outcome query_class plugin request = Raise e) as Hout.
    { unfold lookup_outcome, dn_parameter. rewrite Hconn, Hdn. cbn [rbind].
      by rewrite Hquery. }
    unfold display, ldap_entry_display_form_title_dn, bind.
    rewrite (ldap_entry_first_read query_class plugin request fresh eq_refl).
    cbv zeta. by rewrite Hcalls, Hout.
Qed.

(** *** What the lookup returns for one entry *)

(** C9, for an entry the photo block can handle. When the directory
    answers with exactly one entry whose photo attributes are well formed
    - absent, [None], bytes, or a list that starts with bytes -
    [ldap_entry] returns a mapping of exactly two keys, ['dn'] and
    ['attributes'], where ['dn'] is the distinguished name of the entry
    that came back, whatever the request asked for. For any other single
    entry it returns nothing: it raises [IndexError] or [TypeError]. *)
Theorem ldap_entry_keys {Conn Query} (query_class : LDAPQuery_class Conn Query)
  (plugin : LDAPPlugin Conn) (request : Request) (st : form_state Conn Query)
  (dn : string) (attrs : CaseInsensitiveDict) :
  reified_ldap_entry st = None ->
  answers query_class plugin request [(dn, attrs)] ->
  (photos_ok attrs ->
     exists m, (ldap_entry query_class plugin request st).1 = Ok m
               /\ dom m = {["dn"; "attributes"]}
               /\ m !! "dn" = Some (PStr dn))
  /\ (~ photos_ok attrs ->
        exists e, (ldap_entry query_class plugin request st).1 = Raise e
                  /\ (e = IndexError \/ e = TypeError)).
Proof.
  intros Hnone Hrows.
  rewrite (ldap_entry_first_value query_class plugin request st _ Hnone Hrows).
  split.
  - intros Hok. exists (entry_value dn attrs). split; [by apply entry_of_ok|].
    unfold entry_value. split.
    + rewrite !dom_insert_L, dom_empty_L. set_solver.
    + apply lookup_insert_eq.
  - apply entry_of_raises.
Qed.


(** C3, with the payload as [encodebytes] writes it. When the directory
    answers with exactly one entry, a photo attribute - one the entry
    holds under a name that folds as ['jpegPhoto'] or as
    ['thumbnailPhoto'] does - that holds photo bytes is listed, in the
    value [ldap_entry] returns, under the name as the entry writes it and
    with a list of one string in place of its value: the image markup,
    whose payload between the [base64,] prefix and the closing quote is
    what [base64.encodebytes] makes of the bytes, decoded. That payload
    is the base64 encoding (RFC 4648) of the bytes cut into lines of at
    most 76 characters, each followed by a line break. The lookup returns
    a value exactly when both photo attributes are well formed. *)
Theorem ldap_entry_photo_markup {Conn Query}
  (query_class : LDAPQuery_class Conn Query)
  (plugin : LDAPPlugin Conn) (request : Request) (st : form_state Conn Query)
  (dn : string) (attrs : CaseInsensitiveDict) (name k : string) (v : pyval)
  (b : list byte) :
  reified_ldap_entry st = None ->
  answers query_class plugin request [(dn, attrs)] ->
  name = "jpegPhoto" \/ name = "thumbnailPhoto" ->
  ci_store attrs !! ci_key attrs name = Some (k, v) ->
  photo_bytes v = Some b ->
  exists payload,
    rbind (base64.encodebytes (PBytes b)) decode = Ok payload
    /\ (exists lines : list (list byte),
          list_byte_of_string payload
          = concat (map (fun line => (line ++ [base64.newline])%list) lines)
          /\ concat lines = base64.b64encode b
          /\ Forall (fun line => (0 < length line <= 76)%nat
                                 /\ base64.newline ∉ line) lines)
    /\ (returns (ldap_entry query_class plugin request st).1 <-> photos_ok attrs)
    /\ (forall m, (ldap_entry query_class plugin request st).1 = Ok m ->
          exists tuples,
            m !! "attributes" = Some (PList tuples)
            /\ (forall v', PTuple [PStr k; v'] ∈ tuples
                  <-> v' = PList [PStr ("<img src=" +:+ String "034"%char
                                          ("data:image/jpeg;base64," +:+ payload
                                           +:+ String "034"%char " />"))])).
Proof.
  intros Hnone Hrows Hname Hv Hb.
  rewrite (ldap_entry_first_value query_class plugin request st _ Hnone Hrows).
  exists (payload_of b). split; [|split; [|split]].
  - cbn [base64.encodebytes rbind]. apply decode_encodebytes.
  - exists (encoded_lines b). unfold payload_of.
    rewrite list_byte_of_string_of_list_byte.
    split; [apply encodebytes_bytes_lines|].
    destruct (encoded_lines_facts b) as (Hcat & _ & Hall & _). by split.
  - apply entry_of_returns.
  - intros m [_ ->]%entry_of_value. eexists.
    split; [apply entry_value_attributes|].
    intros v'. rewrite tuple_listed, listing_elem.
    pose proof (ci_wf_filed attrs _ _ Hv) as Hk. simpl in Hk.
    rewrite Hk, Hv. split.
    + intros (v0 & [= <-] & ->). apply (shown_photo attrs name k v b Hname Hv Hb).
    + intros ->. exists v. split; [done|].
      symmetry. apply (shown_photo attrs name k v b Hname Hv Hb).
Qed.

(** *** A list value and its first element *)






(** ** The LDAP columns *)

Lemma strs_of_strs (ss : list string) : strs_of (map PStr ss) = Ok ss.
Proof. induction ss as [|s ss IH]; simpl; [done | by rewrite IH]. Qed.

Lemma strs_of_Ok (l : list pyval) (ss : list string) :
  strs_of l = Ok ss <-> l = map PStr ss.
Proof.
  revert ss. induction l as [|x l IH]; intros ss; simpl.
  - split; [intros [= <-]; done | by destruct ss].
  - destruct x as [| z | s | b | l' | l']; try (split; [discriminate | by destruct ss]).
    destruct (strs_of l) as [ss'|e] eqn:E; cbn [rbind].
    + split.
      * intros [= <-]. simpl. f_equal. by apply IH.
      * destruct ss as [|s0 ss0]; [discriminate|]. intros [= -> Hl].
        apply IH in Hl. congruence.
    + split; [discriminate|].
      destruct ss as [|s0 ss0]; [discriminate|]. intros [= -> Hl].
      apply IH in Hl. discriminate.
Qed.

Lemma strs_of_Raise (l : list pyval) (e : exn) :
  strs_of l = Raise e <-> e = TypeError /\ exists x, x ∈ l /\ is_str x = false.
Proof.
  revert e. induction l as [|x l IH]; intros e; simpl.
  - split; [discriminate|]. intros [_ (x & Hx & _)]. by apply elem_of_nil in Hx.
  - destruct x as [| z | s | b | l' | l'];
      try (split; [intros [= <-]; split; [done|]; eexists; split; [by left | done]
                  | by intros [-> _]]).
    destruct (strs_of l) as [ss'|e'] eqn:E; cbn [rbind].
    + split; [discriminate|]. intros [-> (x & Hx & Hstr)].
      apply elem_of_cons in Hx as [-> | Hx]; [discriminate|].
      enough (Ok ss' = Raise (A := list string) TypeError) by discriminate.
      apply IH. split; [done|]. eauto.
    + destruct (proj1 (IH e') eq_refl) as [-> (x & Hx & Hstr)].
      split; [intros [= <-]; split; [done|]; exists x; split; [by right | done]
             | by intros [-> _]].
Qed.

Lemma not_str_is_str (x : pyval) : (forall s, x <> PStr s) <-> is_str x = false.
Proof.
  destruct x; simpl; split; try done.
  intros H. by destruct (H s).
Qed.

(** C8, for text values. For an entry row and the attribute name of an
    [LDAPColumn] column, [get_value] is the empty string when the row has
    no attribute under a name that folds as the column's does; the
    strings of a list or tuple value joined with ['<br /> ']; the value
    itself when it is neither list nor tuple. A list or tuple that holds
    anything but strings is not joined: [get_value] raises [TypeError]. *)
Theorem LDAPColumn_get_value_cases (attr_name : string) (obj : ldap_entry_row) :
  (ci_store obj.2 !! ci_key obj.2 attr_name = None ->
     LDAPColumn_get_value attr_name obj = Ok (PStr EmptyString))
  /\ (forall (k : string) (ss : list string),
        ci_store obj.2 !! ci_key obj.2 attr_name = Some (k, PList (map PStr ss))
        \/ ci_store obj.2 !! ci_key obj.2 attr_name = Some (k, PTuple (map PStr ss)) ->
        LDAPColumn_get_value attr_name obj
        = Ok (PStr (String.concat "<br /> " ss)))
  /\ (forall (k : string) (l : list pyval) (x : pyval),
        ci_store obj.2 !! ci_key obj.2 attr_name = Some (k, PList l)
        \/ ci_store obj.2 !! ci_key obj.2 attr_name = Some (k, PTuple l) ->
        x ∈ l -> (forall s, x <> PStr s) ->
        LDAPColumn_get_value attr_name obj = Raise TypeError)
  /\ (forall (k : string) (v : pyval),
        ci_store obj.2 !! ci_key obj.2 attr_name = Some (k, v) ->
        (forall l, v <> PList l) -> (forall l, v <> PTuple l) ->
        LDAPColumn_get_value attr_name obj = Ok v).
Proof.
  unfold LDAPColumn_get_value, ci_get, ci_lookup. repeat split.
  - by intros ->.
  - intros k ss [-> | ->]; unfold str_join; cbn [snd]; by rewrite strs_of_strs.
  - intros k l x H Hx Hnot. apply not_str_is_str in Hnot.
    assert (strs_of l = Raise TypeError) as Hl by (apply strs_of_Raise; eauto).
    destruct H as [-> | ->]; unfold str_join; cbn [snd]; by rewrite Hl.
  - intros k v -> Hl Ht. cbn [snd].
    destruct v; try done; [by destruct (Hl l) | by destruct (Ht l)].
Qed.

(** ** The registrations *)


(** C6, as the registrations have it. The add form has four inner tab
    forms, registered under the names [connection], [users-schema],
    [groups-schema] and [search-settings], each an inner add form. *)
Theorem add_form_sub_forms {Conn} (schema : Fields) :
  let tabs := inner_tab_forms (Conn := Conn) schema security_manager LDAPPluginAddForm in
  map fst tabs = tab_names
  /\ length tabs = 4%nat
  /\ Forall (fun nf => base nf.2 = InnerAddForm) tabs.
Proof.
  cbv zeta. split; [reflexivity|]. split; [reflexivity|].
  repeat constructor.
Qed.

(** C7. The edit form has inner tab forms under the same four names as the
    add form, and under each name the fields of the edit sub-form are the
    fields of the add sub-form; those of the two connection sub-forms are
    what [ldap_plugin_connection_fields] returns. *)
Theorem edit_form_same_sub_forms {Conn} (schema : Fields) :
  let add := inner_tab_forms (Conn := Conn) schema security_manager LDAPPluginAddForm in
  let edit := inner_tab_forms (Conn := Conn) schema ldap_plugin
                LDAPPluginPropertiesEditForm in
  map fst add = tab_names
  /\ map fst edit = tab_names
  /\ Forall2 (fun a e =>
                a.1 = e.1
                /\ base a.2 = InnerAddForm /\ base e.2 = InnerEditForm
                /\ form_fields (Conn := Conn) schema security_manager a.2
                   = form_fields (Conn := Conn) schema ldap_plugin e.2)
             add edit
  /\ form_fields (Conn := Conn) schema security_manager LDAPPluginConnectionAddForm
     = ldap_plugin_connection_fields schema
  /\ form_fields (Conn := Conn) schema ldap_plugin LDAPPluginConnectionEditForm
     = ldap_plugin_connection_fields schema.
Proof.
  cbv zeta. split; [reflexivity|]. split; [reflexivity|].
  split; [|split; reflexivity].
  repeat (constructor; [repeat split|]). constructor.
Qed.

(** ** The sample entry, evaluated *)

Example ldap_entry_sample :
  (ldap_entry answer_one sample_plugin sample_request fresh).1
  = Ok (list_to_map [
      ("dn", PStr sample_dn);
      ("attributes", PList [
         PTuple [PStr "JPEGPHOTO"; sample_markup];
         PTuple [PStr "SN"; PStr "Doe"];
         PTuple [PStr "cn"; PStr "John Doe"];
         PTuple [PStr "mail"; PList [PStr "jdoe@example.org"; PStr "john@example.org"]];
         PTuple [PStr "uid"; PList [PStr "jdoe"]]])]).
Proof. vm_compute. reflexivity. Qed.

Example ldap_entry_sample_calls :
  calls (ldap_entry answer_one sample_plugin sample_request fresh).2
  = [GetConnection; Execute sample_lookup_query 1%nat].
Proof. vm_compute. reflexivity. Qed.

Example ldap_entry_no_answer :
  ldap_entry answer_none sample_plugin sample_request fresh
  = (Ok ∅, {| reified_ldap_entry := Some ∅;
              calls := [GetConnection; Execute sample_lookup_query 1%nat] |}).
Proof. vm_compute. reflexivity. Qed.

(** The sample helper strips the white space around the base DN. *)
Example sample_query_stripped :
  LDAPQuery answer_one (PStr "  uid=jdoe,ou=people,dc=example,dc=org ")
    "(objectclass=*)" BASE ALL_ATTRIBUTES
  = Ok sample_lookup_query.
Proof. vm_compute. reflexivity. Qed.

Example sample_fields_selected :
  form_fields (Conn := nat) sample_schema ldap_plugin
    (LDAPPluginSearchSettingsEditForm sample_schema)
  = Ok ["users_select_query"; "users_search_query";
        "groups_select_query"; "groups_search_query"].
Proof. vm_compute. reflexivity. Qed.

(** ** The statements on the sample data *)

Lemma sample_answers (rows : list ldap_entry_row) :
  answers (sample_LDAPQuery rows) sample_plugin sample_request rows.
Proof. exists 1%nat, sample_lookup_query. repeat split. Defined.

Lemma sample_photos_ok : photos_ok sample_attrs.
Proof. split; vm_compute; reflexivity. Defined.

Lemma sample_photo_lookup :
  ci_store sample_attrs !! ci_key sample_attrs "jpegPhoto"
  = Some ("JPEGPHOTO", PList [PBytes (bytes_of "foob"); PBytes (bytes_of "second")]).
Proof. vm_compute. reflexivity. Defined.

Lemma ldap_entry_not_found_witness :
  (ldap_entry answer_two sample_plugin sample_request fresh).1 = Ok ∅
  /\ (LDAPEntryPropertiesTableValues_values answer_two sample_plugin sample_request
        fresh).1 = Ok []
  /\ (LDAPEntryPropertiesTableValues_values answer_two sample_plugin sample_request
        (ldap_entry answer_two sample_plugin sample_request fresh).2).1 = Ok [].
Proof.
  apply (ldap_entry_not_found answer_two sample_plugin sample_request fresh
           [sample_row; ("uid=other,ou=people,dc=example,dc=org", no_attrs)]).
  - reflexivity.
  - apply sample_answers.
  - simpl. discriminate.
Defined.

Lemma ldap_entry_one_query_witness :
  (calls (ldap_entry answer_one sample_plugin sample_request fresh).2
   = [GetConnection; Execute sample_lookup_query 1%nat]
   /\ calls (display answer_one sample_plugin sample_request fresh).2
      = [GetConnection; Execute sample_lookup_query 1%nat])
  /\ (ldap_entry answer_one sample_plugin request_without_dn fresh
      = (Raise AttributeError, {| reified_ldap_entry := None; calls := [GetConnection] |})
      /\ display answer_one sample_plugin request_without_dn fresh
         = (Raise AttributeError,
            {| reified_ldap_entry := None; calls := [GetConnection] |})).
Proof.
  split.
  - apply (proj1 (ldap_entry_one_query answer_one sample_plugin sample_request 1%nat
                    eq_refl)
             "uid=jdoe,ou=people,dc=example,dc=org" sample_lookup_query).
    + vm_compute. reflexivity.
    + vm_compute. reflexivity.
  - apply (proj2 (ldap_entry_one_query answer_one sample_plugin request_without_dn
                    1%nat eq_refl) AttributeError).
    + vm_compute. reflexivity.
    + reflexivity.
Defined.

Lemma ldap_entry_keys_witness :
  dn_parameter sample_request <> PStr sample_dn
  /\ exists m, (ldap_entry answer_one sample_plugin sample_request fresh).1 = Ok m
       /\ dom m = {["dn"; "attributes"]}
       /\ m !! "dn" = Some (PStr sample_dn).
Proof.
  split; [vm_compute; discriminate|].
  apply (proj1 (ldap_entry_keys answer_one sample_plugin sample_request fresh
                  sample_dn sample_attrs eq_refl (sample_answers [sample_row]))).
  exact sample_photos_ok.
Defined.


Lemma ldap_entry_photo_markup_witness :
  exists m tuples payload,
    (ldap_entry answer_one sample_plugin sample_request fresh).1 = Ok m
    /\ m !! "attributes" = Some (PList tuples)
    /\ (forall v', PTuple [PStr "JPEGPHOTO"; v'] ∈ tuples
          <-> v' = PList [PStr ("<img src=" +:+ String "034"%char
                                  ("data:image/jpeg;base64," +:+ payload
                                   +:+ String "034"%char " />"))])
    /\ rbind (base64.encodebytes (PBytes (bytes_of "foob"))) decode = Ok payload.
Proof.
  destruct (ldap_entry_photo_markup answer_one sample_plugin sample_request fresh
              sample_dn sample_attrs "jpegPhoto" "JPEGPHOTO"
              (PList [PBytes (bytes_of "foob"); PBytes (bytes_of "second")])
              (bytes_of "foob") eq_refl (sample_answers [sample_row])
              (or_introl eq_refl) sample_photo_lookup eq_refl)
    as (payload & Hpayload & Hlines & Hreturns & Hvalue).
  destruct (proj2 Hreturns sample_photos_ok) as [m Hm].
  destruct (Hvalue m Hm) as (tuples & Hattrs & Hitem).
  exists m, tuples, payload. repeat split; try assumption; apply Hitem.
Defined.


Lemma LDAPColumn_get_value_cases_witness :
  LDAPColumn_get_value "telephoneNumber" sample_row = Ok (PStr EmptyString)
  /\ LDAPColumn_get_value "MAIL" sample_row
     = Ok (PStr (String.concat "<br /> " ["jdoe@example.org"; "john@example.org"]))
  /\ LDAPColumn_get_value "mail" (sample_dn, sample_attrs_binary) = Raise TypeError
  /\ LDAPColumn_get_value "sn" sample_row = Ok (PStr "Doe").
Proof.
  split; [|split; [|split]].
  - apply (proj1 (LDAPColumn_get_value_cases "telephoneNumber" sample_row)).
    vm_compute. reflexivity.
  - apply (proj1 (proj2 (LDAPColumn_get_value_cases "MAIL" sample_row)) "mail").
    left. vm_compute. reflexivity.
  - apply (proj1 (proj2 (proj2 (LDAPColumn_get_value_cases "mail"
                                  (sample_dn, sample_attrs_binary))))
             "mail" [PBytes (bytes_of "jdoe@example.org")]
             (PBytes (bytes_of "jdoe@example.org"))).
    + left. vm_compute. reflexivity.
    + apply list_elem_of_here.
    + discriminate.
  - apply (proj2 (proj2 (proj2 (LDAPColumn_get_value_cases "sn" sample_row))) "SN").
    + vm_compute. reflexivity.
    + discriminate.
    + discriminate.
Defined.

(** ** Where the claims as written fail *)

(** C2 as written fails for a request that has no ['dn'] parameter: the
    sample helper, which calls [strip()] on the base DN it is given as
    the helper of [pyams_auth_ldap.query] does, raises [AttributeError]
    on [None], and the lookup has executed no query. *)
Lemma ldap_entry_without_dn_no_query :
  params request_without_dn !! "dn" = None
  /\ (ldap_entry answer_one sample_plugin request_without_dn fresh).1
     = Raise AttributeError
  /\ forall query conn,
       Execute query conn
       ∉ calls (ldap_entry answer_one sample_plugin request_without_dn fresh).2.
Proof.
  split; [vm_compute; reflexivity|]. split; [vm_compute; reflexivity|].
  intros query conn Hin.
  change (calls (ldap_entry answer_one sample_plugin request_without_dn fresh).2)
    with [GetConnection (Conn := nat) (Query := sample_query)] in Hin.
  apply list_elem_of_singleton in Hin. discriminate.
Qed.

(** C3 as written fails on the payload: the markup of the sample photo
    does not hold the base64 encoding of its bytes, [Zm9vYg==], but that
    encoding followed by a line break. *)
Lemma photo_payload_has_line_break :
  base64.b64encode (bytes_of "foob") = bytes_of "Zm9vYg=="
  /\ exists tuples,
       (ldap_entry answer_one sample_plugin sample_request fresh).1
       = Ok (<["dn" := PStr sample_dn]> (<["attributes" := PList tuples]> ∅))
       /\ PTuple [PStr "JPEGPHOTO";
                  PList [PStr ("<img src=" +:+ String "034"%char
                                 ("data:image/jpeg;base64,Zm9vYg=="
                                  +:+ String "010"%char (String "034"%char " />")))]]
          ∈ tuples
       /\ PTuple [PStr "JPEGPHOTO";
                  PList [PStr ("<img src=" +:+ String "034"%char
                                 ("data:image/jpeg;base64,"
                                  +:+ string_of_list_byte
                                        (base64.b64encode (bytes_of "foob"))
                                  +:+ String "034"%char " />"))]]
          ∉ tuples.
Proof.
  split; [vm_compute; reflexivity|].
  exists [PTuple [PStr "JPEGPHOTO"; sample_markup];
          PTuple [PStr "SN"; PStr "Doe"];
          PTuple [PStr "cn"; PStr "John Doe"];
          PTuple [PStr "mail"; PList [PStr "jdoe@example.org"; PStr "john@example.org"]];
          PTuple [PStr "uid"; PList [PStr "jdoe"]]].
  split; [vm_compute; reflexivity|]. split; [apply list_elem_of_here|].
  intros Hin.
  repeat (apply elem_of_cons in Hin as [Hin|Hin];
          [vm_compute in Hin; discriminate Hin|]).
  by apply elem_of_nil in Hin.
Qed.

(** C8 as written fails for a list that holds something other than
    strings: the elements are not joined, [get_value] raises. *)
Lemma LDAPColumn_get_value_binary_list :
  found sample_attrs_binary "mail" = Some (PList [PBytes (bytes_of "jdoe@example.org")])
  /\ LDAPColumn_get_value "mail" (sample_dn, sample_attrs_binary) = Raise TypeError.
Proof. split; vm_compute; reflexivity. Qed.

(** C9 as written fails for an entry whose photo attribute holds a text:
    the directory answers with exactly one entry and the lookup returns
    no mapping, it raises. *)
Lemma ldap_entry_text_photo_raises :
  execute answer_text_photo sample_lookup_query 1%nat = Ok [(sample_dn, sample_attrs_text)]
  /\ (ldap_entry answer_text_photo sample_plugin sample_request fresh).1
     = Raise TypeError
  /\ ~ exists m, (ldap_entry answer_text_photo sample_plugin sample_request fresh).1
                 = Ok m.
Proof.
  split; [reflexivity|]. split; [vm_compute; reflexivity|].
  intros [m Hm]. vm_compute in Hm. discriminate Hm.
Qed.


(** C6 with the count of three fails: the add form does not have three
    inner tab forms. *)
Lemma add_form_sub_forms_not_three :
  ~ (length (inner_tab_forms (Conn := nat) sample_schema security_manager
               LDAPPluginAddForm) = 3%nat).
Proof. vm_compute. discriminate. Qed.

(** * More properties *)

(** ** What the lookup raises *)

(** X1. When the directory answers with exactly one entry, the outcome of
    the lookup is decided by the values the entry holds for the two photo
    attributes, under any way of writing their names, ['jpegPhoto']
    first: an empty list raises [IndexError]; a value that is neither
    [None], nor bytes, nor a list that starts with bytes raises
    [TypeError]; otherwise the lookup returns. It raises nothing else. *)
Theorem ldap_entry_raises {Conn Query} (query_class : LDAPQuery_class Conn Query)
  (plugin : LDAPPlugin Conn) (request : Request) (st : form_state Conn Query)
  (dn : string) (attrs : CaseInsensitiveDict) :
  reified_ldap_entry st = None ->
  answers query_class plugin request [(dn, attrs)] ->
  (ldap_entry query_class plugin request st).1
  = match photo_error (snd <$> ci_store attrs !! ci_key attrs "jpegPhoto") with
    | Some e => Raise e
    | None =>
        match photo_error (snd <$> ci_store attrs !! ci_key attrs "thumbnailPhoto") with
        | Some e => Raise e
        | None => Ok (entry_value dn attrs)
        end
    end
  /\ (forall e, (ldap_entry query_class plugin request st).1 = Raise e ->
        e = IndexError \/ e = TypeError).
Proof.
  intros Hnone Hrows.
  rewrite (ldap_entry_first_value query_class plugin request st _ Hnone Hrows).
  rewrite entry_of_outcome. unfold found. split; [done|].
  intros e.
  destruct (photo_error (snd <$> ci_store attrs !! ci_key attrs "jpegPhoto"))
    as [e1|] eqn:H1.
  - intros [= <-]. by apply photo_error_kind in H1.
  - destruct (photo_error (snd <$> ci_store attrs !! ci_key attrs "thumbnailPhoto"))
      as [e2|] eqn:H2; [|done].
    intros [= <-]. by apply photo_error_kind in H2.
Qed.

(** ** The reified property *)

(** X2. Once a read of [ldap_entry] has returned a value, every later read
    on the same form returns that value and calls neither the plug-in nor
    the directory, whatever the directory would answer by then. *)
Theorem ldap_entry_read_again {Conn Query}
  (query_class query_class' : LDAPQuery_class Conn Query)
  (plugin : LDAPPlugin Conn) (request : Request) (st : form_state Conn Query)
  (val : gmap string pyval) :
  (ldap_entry query_class plugin request st).1 = Ok val ->
  ldap_entry query_class' plugin request (ldap_entry query_class plugin request st).2
  = (Ok val, (ldap_entry query_class plugin request st).2).
Proof.
  intros Hval. apply ldap_entry_later_read.
  destruct (reified_ldap_entry st) as [val0|] eqn:Hst.
  - rewrite (ldap_entry_later_read query_class plugin request st val0 Hst) in Hval |- *.
    cbn [fst snd] in *. congruence.
  - rewrite (ldap_entry_first_read query_class plugin request st Hst) in Hval |- *.
    cbv zeta in *. destruct (lookup_outcome _ _ _); cbn [fst snd] in *; [|discriminate].
    by injection Hval as ->.
Qed.

(** X3. A read of [ldap_entry] that raises keeps nothing, wherever it
    raised - at the connection, at the building of the query, at its
    execution or in the photo block: the calls it made stay made, and the
    next read on the same form starts over. It asks for the connection
    again and, when it gets one and the query is built, calls [execute]
    on the query again; its outcome is that of a first read, on a form
    never read, with what the plug-in and the query helper do then. *)
Theorem ldap_entry_read_after_raise {Conn Query}
  (query_class query_class' : LDAPQuery_class Conn Query)
  (plugin plugin' : LDAPPlugin Conn) (request : Request) (st : form_state Conn Query)
  (e : exn) :
  (ldap_entry query_class plugin request st).1 = Raise e ->
  let st1 := (ldap_entry query_class plugin request st).2 in
  let made := GetConnection ::
              match get_connection plugin with
              | Ok conn =>
                  match LDAPQuery query_class
                          (match params request !! "dn" with
                           | Some dn => PStr dn
                           | None => PNone
                           end) "(objectclass=*)" BASE ALL_ATTRIBUTES with
                  | Ok query => [Execute query conn]
                  | Raise _ => []
                  end
              | Raise _ => []
              end in
  let made' := GetConnection ::
               match get_connection plugin' with
               | Ok conn =>
                   match LDAPQuery query_class'
                           (match params request !! "dn" with
                            | Some dn => PStr dn
                            | None => PNone
                            end) "(objectclass=*)" BASE ALL_ATTRIBUTES with
                   | Ok query => [Execute query conn]
                   | Raise _ => []
                   end
               | Raise _ => []
               end in
  reified_ldap_entry st = None
  /\ reified_ldap_entry st1 = None
  /\ calls st1 = (calls st ++ made)%list
  /\ (ldap_entry query_class' plugin' request st1).1
     = (ldap_entry query_class' plugin' request fresh).1
  /\ calls (ldap_entry query_class' plugin' request st1).2
     = (calls st ++ made ++ made')%list.
Proof.
  intros Hraise.
  destruct (reified_ldap_entry st) as [val0|] eqn:Hst.
  { rewrite (ldap_entry_later_read query_class plugin request st val0 Hst) in Hraise.
    discriminate. }
  rewrite (ldap_entry_first_read query_class plugin request st Hst) in Hraise |- *.
  cbv zeta in *.
  fold (dn_parameter request).
  fold (lookup_calls query_class plugin request).
  fold (lookup_calls query_class' plugin' request).
  destruct (lookup_outcome query_class plugin request) as [val|e0]; [discriminate|].
  cbn [fst snd]. split; [done|]. split; [exact Hst|]. split; [done|].
  rewrite ldap_entry_first_read by exact Hst.
  rewrite (ldap_entry_first_read query_class' plugin' request fresh eq_refl).
  cbv zeta.
  destruct (lookup_outcome query_class' plugin' request);
    unfold remember, log_calls; cbn [fst snd calls]; by rewrite <- ?app_assoc.
Qed.

(** ** The title and the table *)

(** X4. The distinguished name in the title of the display form is
    ['unknown'] when the directory answers with no entry or with several,
    and the name of the entry that came back when it answers with one
    whose photo attributes, under any way of writing their names, are
    well formed. *)
Theorem title_dn_cases {Conn Query} (query_class : LDAPQuery_class Conn Query)
  (plugin : LDAPPlugin Conn) (request : Request) (st : form_state Conn Query)
  (rows : list ldap_entry_row) :
  reified_ldap_entry st = None ->
  answers query_class plugin request rows ->
  (length rows <> 1%nat ->
     (ldap_entry_display_form_title_dn query_class plugin request st).1
     = Ok (PStr "unknown"))
  /\ (forall dn attrs, rows = [(dn, attrs)] -> photos_ok attrs ->
        (ldap_entry_display_form_title_dn query_class plugin request st).1
        = Ok (PStr dn)).
Proof.
  intros Hnone Hrows.
  unfold ldap_entry_display_form_title_dn, bind, ret.
  rewrite (ldap_entry_first_read query_class plugin request st Hnone). cbv zeta.
  rewrite (answers_outcome _ _ _ _ Hrows). split.
  - intros Hlen. by rewrite (entry_of_not_one rows Hlen).
  - intros dn attrs -> Hok. by rewrite (entry_of_ok dn attrs Hok).
Qed.

Lemma attribute_column_listing (items : list (string * pyval)) :
  Forall2 (fun row kv => LDAPEntryAttributeColumn_get_value row = Ok (PStr kv.1))
          (map (fun kv => PTuple [PStr kv.1; kv.2]) items) items.
Proof. induction items as [|kv items IH]; simpl; by constructor. Qed.

(** X5. When the directory answers with one entry whose photo attributes
    are well formed, the rows of the entry-properties table are the
    (name, value) tuples of the attributes of the entry, each under its
    name as the entry writes it and with the value shown for it - the
    markup for a photo that holds bytes, the value the entry holds
    otherwise - in strictly ascending order of the names; the attribute
    column shows, row by row, those names. *)
Theorem entry_table_rows {Conn Query} (query_class : LDAPQuery_class Conn Query)
  (plugin : LDAPPlugin Conn) (request : Request) (st : form_state Conn Query)
  (dn : string) (attrs : CaseInsensitiveDict) :
  reified_ldap_entry st = None ->
  answers query_class plugin request [(dn, attrs)] ->
  photos_ok attrs ->
  exists items : list (string * pyval),
    (LDAPEntryPropertiesTableValues_values query_class plugin request st).1
    = Ok (map (fun kv => PTuple [PStr kv.1; kv.2]) items)
    /\ StronglySorted (fun x y => str_lt (fst x) (fst y)) items
    /\ (forall k v, (k, v) ∈ items
          <-> exists v0, ci_store attrs !! ci_key attrs k = Some (k, v0)
                /\ v = if decide (ci_key attrs k = ci_key attrs "jpegPhoto"
                                  \/ ci_key attrs k = ci_key attrs "thumbnailPhoto")
                       then match photo_bytes v0 with
                            | Some b =>
                                PList [PStr ("<img src=" +:+ String "034"%char
                                               ("data:image/jpeg;base64,"
                                                +:+ string_of_list_byte
                                                      (base64.encodebytes_bytes b)
                                                +:+ String "034"%char " />"))]
                            | None => v0
                            end
                       else v0)
    /\ Forall2 (fun row kv =>
                  LDAPEntryAttributeColumn_get_value row = Ok (PStr kv.1))
               (map (fun kv => PTuple [PStr kv.1; kv.2]) items) items.
Proof.
  intros Hnone Hrows Hok. exists (listing attrs).
  unfold LDAPEntryPropertiesTableValues_values, bind, lift.
  rewrite (ldap_entry_first_read query_class plugin request st Hnone).
  rewrite (answers_outcome _ _ _ _ Hrows), (entry_of_ok dn attrs Hok).
  cbv zeta. cbn [fst].
  unfold dict_get. rewrite entry_value_attributes. cbn [py_iter].
  split; [done|]. split; [apply listing_strict|]. split.
  - apply listing_elem.
  - apply attribute_column_listing.
Qed.

(** X6. The sorted list of the items of a dictionary does not depend on
    the order in which the dictionary lists them. *)
Theorem sorted_items_any_order (m : gmap string pyval)
  (items : list (string * pyval)) :
  Permutation items (map_to_list m) ->
  sorted_by_key items = sorted_by_key (map_to_list m).
Proof.
  intros Hp. symmetry. apply sorted_by_key_order_free; [|by symmetry].
  change (map fst (map_to_list m)) with ((map_to_list m).*1).
  apply NoDup_fst_map_to_list.
Qed.

(** X18. The same holds of the dictionary of an entry, whose items come
    in the order in which the directory gave the attributes: sorted, the
    items are one list whatever that order was. *)
Theorem sorted_entry_items_any_order (attrs : CaseInsensitiveDict)
  (items : list (string * pyval)) :
  Permutation items (ci_items (ci_store attrs)) ->
  sorted_by_key items = sorted_by_key (ci_items (ci_store attrs))
  /\ StronglySorted (fun x y => str_lt (fst x) (fst y)) (sorted_by_key items).
Proof.
  intros Hp.
  assert (sorted_by_key items = sorted_by_key (ci_items (ci_store attrs))) as Heq.
  { symmetry. apply sorted_by_key_order_free; [|by symmetry].
    apply (ci_items_NoDup (ci_key attrs)), ci_wf_filed. }
  split; [done|]. rewrite Heq.
  apply sorted_by_key_strict, (ci_items_NoDup (ci_key attrs)), ci_wf_filed.
Qed.

(** ** The LDAP columns, again *)

(** X7. [LDAPColumn.get_value] raises only [TypeError], and exactly when
    the attribute of the row, under any way of writing its name, is a
    list or a tuple that holds something other than a string; on every
    other row it returns. *)
Theorem LDAPColumn_get_value_raises (attr_name : string) (obj : ldap_entry_row)
  (e : exn) :
  LDAPColumn_get_value attr_name obj = Raise e
  <-> e = TypeError
      /\ exists k v l x,
           ci_store obj.2 !! ci_key obj.2 attr_name = Some (k, v)
           /\ sequence_of v = Some l /\ x ∈ l /\ is_str x = false.
Proof.
  unfold LDAPColumn_get_value, ci_get, ci_lookup.
  destruct (ci_store obj.2 !! ci_key obj.2 attr_name) as [[k v]|] eqn:Hv; cbn [snd].
  - destruct v as [| z | s | b | l | l];
      try (split; [discriminate | intros [_ (k0 & v & l & x & [= <- <-] & [=] & _)]]).
    + unfold str_join. destruct (strs_of l) as [ss|e'] eqn:E; cbn [rbind].
      * split; [discriminate|].
        intros [-> (k0 & v & l' & x & [= <- <-] & [= <-] & Hx)].
        assert (strs_of l = Raise TypeError) by (apply strs_of_Raise; eauto).
        congruence.
      * apply strs_of_Raise in E as [-> (x & Hx & Hstr)].
        split; [intros [= <-]; split; [done|]; by exists k, (PList l), l, x
               | by intros [-> _]].
    + unfold str_join. destruct (strs_of l) as [ss|e'] eqn:E; cbn [rbind].
      * split; [discriminate|].
        intros [-> (k0 & v & l' & x & [= <- <-] & [= <-] & Hx)].
        assert (strs_of l = Raise TypeError) by (apply strs_of_Raise; eauto).
        congruence.
      * apply strs_of_Raise in E as [-> (x & Hx & Hstr)].
        split; [intros [= <-]; split; [done|]; by exists k, (PTuple l), l, x
               | by intros [-> _]].
  - cbn. split; [discriminate|]. by intros [_ (k & v & l & x & [=] & _)].
Qed.

(** ** Field selections *)

Lemma select_each_Ok (names : list string) (fields : Fields) (l : Fields) :
  select_each names fields = Ok l <-> l = names /\ Forall (fun n => n ∈ fields) names.
Proof.
  revert l. induction names as [|n names IH]; intros l; simpl.
  - split; [intros [= <-]; by split | by intros [-> _]].
  - case_bool_decide as Hn.
    + destruct (select_each names fields) as [rest|e] eqn:E; cbn [rbind].
      * destruct (proj1 (IH rest) eq_refl) as [-> Hall].
        split; [intros [= <-]; split; [done | by constructor] | by intros [-> _]].
      * split; [discriminate|]. intros [-> Hall]. apply Forall_cons in Hall as [_ Hall].
        enough (Raise e = Ok names) by discriminate. by apply IH.
    + split; [discriminate|]. intros [_ Hall]. by apply Forall_cons in Hall as [? _].
Qed.

Lemma select_each_Raise (names : list string) (fields : Fields) (e : exn) :
  select_each names fields = Raise e
  <-> e = KeyError /\ exists n, n ∈ names /\ n ∉ fields.
Proof.
  revert e. induction names as [|n names IH]; intros e; simpl.
  - split; [discriminate|]. intros [_ (n & Hn & _)]. by apply elem_of_nil in Hn.
  - case_bool_decide as Hn.
    + destruct (select_each names fields) as [rest|e'] eqn:E; cbn [rbind].
      * split; [discriminate|]. intros [-> (n' & Hn' & Hnot)].
        apply elem_of_cons in Hn' as [-> | Hn']; [done|].
        enough (Ok rest = Raise (A := Fields) KeyError) by discriminate.
        apply IH. eauto.
      * destruct (proj1 (IH e') eq_refl) as [-> (n' & Hn' & Hnot)].
        split; [intros [= <-]; split; [done|]; exists n'; split; [by right | done]
               | by intros [-> _]].
    + split; [intros [= <-]; split; [done|]; exists n; split; [by left | done]
             | by intros [-> _]].
Qed.

(** X11. A field selection succeeds exactly when every name asked for is a
    field and no name is asked for twice, and it is then the names in the
    order asked. It raises [KeyError] exactly when a name is not a field,
    and [ValueError] exactly when all are fields and one is repeated. *)
Theorem select_outcome (names : list string) (fields : Fields) :
  (forall l, select names fields = Ok l
     <-> l = names /\ Forall (fun n => n ∈ fields) names /\ NoDup names)
  /\ (select names fields = Raise KeyError <-> exists n, n ∈ names /\ n ∉ fields)
  /\ (select names fields = Raise ValueError
        <-> Forall (fun n => n ∈ fields) names /\ ~ NoDup names)
  /\ (forall e, select names fields = Raise e -> e = KeyError \/ e = ValueError).
Proof.
  unfold select.
  destruct (select_each names fields) as [selected|e0] eqn:E; cbn [rbind].
  - apply select_each_Ok in E as [-> Hall].
    assert (~ exists n, n ∈ names /\ n ∉ fields) as Hno.
    { intros (n & Hn & Hnot). rewrite Forall_forall in Hall. auto. }
    case_bool_decide as Hnd.
    + split; [intros l; split; [by intros [= <-] | by intros (-> & _ & _)] |].
      split; [split; [discriminate | intros; by destruct Hno] |].
      split; [split; [discriminate | by intros [_ ?]] | discriminate].
    + split; [intros l; split; [discriminate | by intros (_ & _ & ?)] |].
      split; [split; [discriminate | intros; by destruct Hno] |].
      split; [split; [done | done] | intros e [= <-]; by right].
  - apply select_each_Raise in E as [-> Hex].
    assert (~ Forall (fun n => n ∈ fields) names) as Hnall.
    { destruct Hex as (n & Hn & Hnot). rewrite Forall_forall. auto. }
    split; [intros l; split; [discriminate | by intros (_ & ? & _)] |].
    split; [split; [done | done] |].
    split; [split; [discriminate | by intros [? _]] | intros e [= <-]; by left].
Qed.

(** ** The registrations, again *)

(** X13. Whatever object the lookup is made for, the inner tab forms
    found for a form are those written for it: inner add forms for the
    add form, and only for a security manager; inner edit forms for the
    properties edit form, and only for an LDAP plug-in; none for any
    other view of the module. *)
Theorem inner_tab_forms_kept_apart {Conn} (schema : Fields)
  (context : component) (form : view_class) (n : string) (f : inner_form) :
  (n, f) ∈ inner_tab_forms (Conn := Conn) schema context form ->
  (form = LDAPPluginAddForm /\ ISecurityManager ∈ provided_by context
   /\ base f = InnerAddForm)
  \/ (form = LDAPPluginPropertiesEditForm /\ ILDAPPlugin ∈ provided_by context
      /\ base f = InnerEditForm).
Proof.
  unfold inner_tab_forms, get_adapters. intros H.
  apply list_elem_of_omap in H as (a & Ha & Hg).
  apply list_elem_of_filter in Ha as [HP Ha].
  apply andb_True in HP as [_ HP].
  unfold registry in Ha.
  repeat (apply elem_of_cons in Ha as [-> | Ha]);
    [ .. | by apply elem_of_nil in Ha ];
    cbn [registered adapter] in Hg; try discriminate Hg;
    injection Hg as <- <-;
    cbn [required adapter all_match] in HP;
    apply andb_True in HP as [Hcontext HP];
    apply andb_True in HP as [_ HP];
    apply andb_True in HP as [Hform _];
    apply bool_decide_unpack in Hcontext;
    apply bool_decide_unpack in Hform;
    injection Hform as ->; [left | left | left | left | right | right | right | right];
    by repeat split.
Qed.

Lemma add_form_tabs {Conn} (schema : Fields) :
  inner_tab_forms (Conn := Conn) schema security_manager LDAPPluginAddForm
  = [("connection", LDAPPluginConnectionAddForm);
     ("users-schema", LDAPPluginUsersSchemaAddForm schema);
     ("groups-schema", LDAPPluginGroupsSchemaAddForm schema);
     ("search-settings", LDAPPluginSearchSettingsAddForm schema)].
Proof. reflexivity. Qed.

Lemma edit_form_tabs {Conn} (schema : Fields) :
  inner_tab_forms (Conn := Conn) schema ldap_plugin LDAPPluginPropertiesEditForm
  = [("connection", LDAPPluginConnectionEditForm);
     ("users-schema", LDAPPluginUsersSchemaEditForm schema);
     ("groups-schema", LDAPPluginGroupsSchemaEditForm schema);
     ("search-settings", LDAPPluginSearchSettingsEditForm schema)].
Proof. reflexivity. Qed.

(** X12. The fields adapters written for the connection, users schema,
    groups schema and search settings sub-forms return the very
    selections that the sub-forms of the add form and of the edit form
    show under the matching names, whatever the plug-in schema declares. *)
Theorem fields_adapters_agree {Conn} (schema : Fields) :
  Forall (fun gn : result Fields * string =>
            exists add edit,
              (gn.2, add) ∈ inner_tab_forms (Conn := Conn) schema security_manager
                              LDAPPluginAddForm
              /\ (gn.2, edit) ∈ inner_tab_forms (Conn := Conn) schema ldap_plugin
                                 LDAPPluginPropertiesEditForm
              /\ form_fields (Conn := Conn) schema security_manager add = gn.1
              /\ form_fields (Conn := Conn) schema ldap_plugin edit = gn.1)
         [(ldap_plugin_connection_fields schema, "connection");
          (ldap_plugin_users_schema_fields schema, "users-schema");
          (ldap_plugin_groups_schema_fields schema, "groups-schema");
          (ldap_plugin_search_settings_fields schema, "search-settings")].
Proof.
  rewrite add_form_tabs, edit_form_tabs.
  repeat apply Forall_cons_2; [ | | | | apply Forall_nil_2]; cbn [fst snd].
  - exists LDAPPluginConnectionAddForm, LDAPPluginConnectionEditForm.
    repeat split; apply list_elem_of_here.
  - exists (LDAPPluginUsersSchemaAddForm schema), (LDAPPluginUsersSchemaEditForm schema).
    repeat split; apply list_elem_of_further, list_elem_of_here.
  - exists (LDAPPluginGroupsSchemaAddForm schema), (LDAPPluginGroupsSchemaEditForm schema).
    repeat split; do 2 apply list_elem_of_further; apply list_elem_of_here.
  - exists (LDAPPluginSearchSettingsAddForm schema),
           (LDAPPluginSearchSettingsEditForm schema).
    repeat split; do 3 apply list_elem_of_further; apply list_elem_of_here.
Qed.

Lemma select_Ok_names (names : list string) (fields l : Fields) :
  select names fields = Ok l -> l = names.
Proof.
  unfold select.
  destruct (select_each names fields) as [selected|e] eqn:E; cbn [rbind];
    [|discriminate].
  apply select_each_Ok in E as [-> _].
  case_bool_decide; [by intros [= <-] | discriminate].
Qed.

(** X14. When the selections of the four tabs of the edit form all
    succeed, no field is on two tabs: the tabs show 31 fields between
    them, all different. *)
Theorem tabs_share_no_field {Conn} (schema : Fields) (shown : list Fields) :
  Forall2 (fun nf l => form_fields (Conn := Conn) schema ldap_plugin nf.2 = Ok l)
          (inner_tab_forms (Conn := Conn) schema ldap_plugin
             LDAPPluginPropertiesEditForm)
          shown ->
  NoDup (concat shown) /\ length (concat shown) = 31%nat.
Proof.
  intros H.
  rewrite edit_form_tabs in H.
  apply Forall2_cons_inv_l in H as (l1 & shown1 & H1 & H & ->).
  apply Forall2_cons_inv_l in H as (l2 & shown2 & H2 & H & ->).
  apply Forall2_cons_inv_l in H as (l3 & shown3 & H3 & H & ->).
  apply Forall2_cons_inv_l in H as (l4 & shown4 & H4 & H & ->).
  apply Forall2_nil_inv_l in H as ->.
  change (form_fields schema ldap_plugin LDAPPluginConnectionEditForm)
    with (ldap_plugin_connection_fields schema) in H1.
  apply select_Ok_names in H1 as ->. apply select_Ok_names in H2 as ->.
  apply select_Ok_names in H3 as ->. apply select_Ok_names in H4 as ->.
  split; [|reflexivity].
  refine (bool_decide_unpack (NoDup _) _). vm_compute. exact Logic.I.
Qed.

(** ** The row links *)

(** X15. [data_attributes] leaves what the base table set for the other
    elements as it is; under ['tr'] it binds ['data-toggle'] to ['modal']
    and ['data-ams-url'] to the link of the row, whatever was bound to
    them, and keeps every other attribute the base table set there. The
    link of a row is the URL of ['ldap-properties.html'] on the plug-in,
    with the distinguished name of the row as its ['dn'] parameter. *)
Theorem data_attributes_kept {Conn Col}
  (absolute_url : LDAPPlugin Conn -> Request -> string -> gmap string pyval -> string)
  (super_data_attributes : gmap string (gmap string (attr_value Col)))
  (context : LDAPPlugin Conn) (request : Request) :
  let result := LDAPPluginSearchResultsTable_data_attributes absolute_url
                  super_data_attributes context request in
  let before := match super_data_attributes !! "tr" with
                | Some d => d
                | None => ∅
                end in
  (forall element, element <> "tr" ->
     result !! element = super_data_attributes !! element)
  /\ exists tr,
       result !! "tr" = Some tr
       /\ tr !! "data-toggle" = Some (Static "modal")
       /\ (exists link,
             tr !! "data-ams-url" = Some (Dynamic link)
             /\ forall row col,
                  link row col
                  = absolute_url context request "ldap-properties.html"
                                 {["dn" := PStr row.1]})
       /\ (forall k, k <> "data-toggle" -> k <> "data-ams-url" ->
             tr !! k = before !! k).
Proof.
  cbv zeta. unfold LDAPPluginSearchResultsTable_data_attributes, setdefault_update.
  split.
  - intros element Hne. by rewrite lookup_insert_ne.
  - eexists. split; [apply lookup_insert_eq|]. split; [|split].
    + apply lookup_union_Some_l. rewrite lookup_insert_ne by done.
      apply lookup_insert_eq.
    + eexists. split.
      * apply lookup_union_Some_l. apply lookup_insert_eq.
      * done.
    + intros k Ht Hu. rewrite lookup_union_r; [done|].
      by rewrite !lookup_insert_ne, lookup_empty.
Qed.

(** ** The fields of the add form *)

Lemma set_widget_factory_names (name : string) (w : widget)
  (fields fields' : list form_field) :
  set_widget_factory name w fields = Ok fields' ->
  map field_name fields' = map field_name fields.
Proof.
  unfold set_widget_factory. case_bool_decide; [|discriminate].
  intros [= <-]. rewrite map_map. apply map_ext. intros f.
  by destruct (String.eqb (field_name f) name).
Qed.

(** X16. The fields of the add form are built exactly when the schema of
    [IPlugin] has a field ['enabled'], and [KeyError] is raised otherwise.
    They are then the fields of the schema in their order, without
    ['__parent__'] and ['__name__']; ['enabled'] has the single checkbox
    widget and no other field has a widget set. *)
Theorem add_form_fields (IPlugin_fields : Fields) :
  (LDAPPluginAddForm_fields IPlugin_fields = Raise KeyError
     <-> "enabled" ∉ IPlugin_fields)
  /\ (forall fields, LDAPPluginAddForm_fields IPlugin_fields = Ok fields ->
        "enabled" ∈ IPlugin_fields
        /\ map field_name fields
           = filter (fun n => n <> "__parent__" /\ n <> "__name__") IPlugin_fields
        /\ (forall f, f ∈ fields ->
              widget_factory f
              = if String.eqb (field_name f) "enabled"
                then Some SingleCheckBoxFieldWidget else None)).
Proof.
  unfold LDAPPluginAddForm_fields, set_widget_factory.
  rewrite map_map. cbn [field_name]. rewrite map_id.
  assert (forall l : Fields,
            omit ["__parent__"; "__name__"] l
            = filter (fun n => n <> "__parent__" /\ n <> "__name__") l) as Homit.
  { intros l. unfold omit. apply list_filter_iff. intros n.
    rewrite !not_elem_of_cons. split; [intros (? & ? & _); by split|].
    intros [? ?]. repeat split; [done | done | apply not_elem_of_nil]. }
  assert ("enabled" ∈ omit ["__parent__"; "__name__"] IPlugin_fields
          <-> "enabled" ∈ IPlugin_fields) as Hin.
  { unfold omit. rewrite list_elem_of_filter. split; [by intros [_ ?]|].
    intros ?. split; [|done]. rewrite !not_elem_of_cons.
    repeat split; [done | done | apply not_elem_of_nil]. }
  case_bool_decide as Hen.
  - split; [split; [discriminate | intros Hnot; destruct Hnot; by apply Hin]|].
    intros fields [= <-]. split; [by apply Hin|]. split.
    + rewrite <- Homit, !map_map.
      rewrite <- (map_id (omit _ _)) at 2. apply map_ext. intros n. cbn.
      by destruct (String.eqb n "enabled").
    + intros f Hf. rewrite map_map in Hf.
      apply (list_elem_of_fmap (A := string)) in Hf as (n & -> & _).
      cbn. destruct (String.eqb n "enabled") eqn:E; cbn; by rewrite ?E.
  - split; [split; [intros _ Hin'; by apply Hen, Hin | done] | discriminate].
Qed.

(** X8. No two adapter registrations of the module are filed under the
    same name, requirements and provided interface: none replaces
    another, whatever the plug-in schema declares. *)
Theorem registrations_distinct {Conn} (schema : Fields) :
  NoDup (map registration_key (registry (Conn := Conn) schema)).
Proof.
  refine (bool_decide_unpack (NoDup _) _). vm_compute. exact Logic.I.
Qed.
(** ** The lines of the payload, counted *)

(** X9. What [encodebytes] returns is the base64 encoding of the bytes cut
    into lines, each followed by a line break: one line for every 57
    bytes begun, every line but the last of exactly 76 characters, the
    last of at least one and at most 76, and no line break inside a line. *)
Theorem encodebytes_lines (s : list byte) :
  exists lines,
    base64.encodebytes_bytes s = concat (map with_newline lines)
    /\ concat lines = base64.b64encode s
    /\ length lines = ((length s + 56) / 57)%nat
    /\ Forall (fun line => (0 < length line <= 76)%nat /\ base64.newline ∉ line) lines
    /\ Forall (fun line => length line = 76%nat) (removelast lines).
Proof.
  exists (encoded_lines s). split; [apply encodebytes_bytes_lines|].
  apply encoded_lines_facts.
Qed.

(** ** Different photos, different markup *)

Lemma sextets_In (i : N) : (i < 64)%N -> In i sextets.
Proof.
  intros Hi. unfold sextets. rewrite <- (N2Nat.id i).
  apply in_map, in_seq. lia.
Qed.

Lemma digits_distinct :
  forallb (fun i =>
             negb (Byte.eqb (base64.digit i) base64.pad)
             && forallb (fun j => implb (Byte.eqb (base64.digit i) (base64.digit j))
                                        (N.eqb i j)) sextets)
          sextets = true.
Proof. vm_compute. reflexivity. Qed.

Lemma byte_eqb_eq (x y : byte) : Byte.eqb x y = true <-> x = y.
Proof. apply Byte.byte_dec_bl || (split; [apply Byte.byte_dec_bl | apply Byte.byte_dec_lb]). Qed.

Lemma digit_inj (i j : N) :
  (i < 64)%N -> (j < 64)%N -> base64.digit i = base64.digit j -> i = j.
Proof.
  intros Hi Hj Heq. pose proof digits_distinct as H.
  rewrite forallb_forall in H. specialize (H i (sextets_In i Hi)).
  apply andb_prop in H as [_ H]. rewrite forallb_forall in H.
  specialize (H j (sextets_In j Hj)).
  rewrite (proj2 (byte_eqb_eq _ _) Heq) in H. by apply N.eqb_eq.
Qed.

Lemma digit_not_pad (i : N) : (i < 64)%N -> base64.digit i <> base64.pad.
Proof.
  intros Hi Heq. pose proof digits_distinct as H.
  rewrite forallb_forall in H. specialize (H i (sextets_In i Hi)).
  apply andb_prop in H as [H _]. by rewrite (proj2 (byte_eqb_eq _ _) Heq) in H.
Qed.

Lemma land_63_lt (x : N) : (N.land x 63 < 64)%N.
Proof.
  change 63%N with (N.ones 6). rewrite N.land_ones. by apply N.mod_lt.
Qed.

Lemma sextet_not_pad (n k : N) : base64.sextet n k <> base64.pad.
Proof. apply digit_not_pad, land_63_lt. Qed.

Lemma sextet_inj (n m k : N) :
  base64.sextet n k = base64.sextet m k ->
  ((n / 2 ^ k) mod 64 = (m / 2 ^ k) mod 64)%N.
Proof.
  intros H. apply digit_inj in H; try apply land_63_lt.
  change 63%N with (N.ones 6) in H.
  by rewrite !N.land_ones, !N.shiftr_div_pow2 in H.
Qed.

Lemma split64 (n m : N) : (n / 64 = m / 64 -> n mod 64 = m mod 64 -> n = m)%N.
Proof.
  intros H1 H2. rewrite (N.div_mod' n 64), (N.div_mod' m 64). congruence.
Qed.

(** A number of 24 bits is known by its four sextets. *)
Lemma sextets_inj (n m : N) :
  (n < 2 ^ 24)%N -> (m < 2 ^ 24)%N ->
  ((n / 2 ^ 18) mod 64 = (m / 2 ^ 18) mod 64)%N ->
  ((n / 2 ^ 12) mod 64 = (m / 2 ^ 12) mod 64)%N ->
  ((n / 2 ^ 6) mod 64 = (m / 2 ^ 6) mod 64)%N ->
  ((n / 2 ^ 0) mod 64 = (m / 2 ^ 0) mod 64)%N ->
  n = m.
Proof.
  intros Hn Hm H18 H12 H6 H0.
  rewrite !N.div_1_r in H0.
  change (2 ^ 6)%N with 64%N in H6. change (2 ^ 12)%N with 4096%N in H12.
  change (2 ^ 18)%N with 262144%N in H18. change (2 ^ 24)%N with 16777216%N in *.
  apply split64; [|done].
  apply split64; [|done].
  rewrite !N.Div0.div_div. change (64 * 64)%N with 4096%N.
  apply split64; [|done].
  rewrite !N.Div0.div_div. change (4096 * 64)%N with 262144%N.
  rewrite !N.mod_small in H18; [done| |].
  - apply N.Div0.div_lt_upper_bound. exact Hm.
  - apply N.Div0.div_lt_upper_bound. exact Hn.
Qed.

(** Bytes do not overlap when they are shifted into place. *)
Lemma byte_low (b : byte) : N.land (Byte.to_N b) 255 = Byte.to_N b.
Proof. destruct b; reflexivity. Qed.

Lemma byte_shift8_low (b : byte) : N.land (N.shiftl (Byte.to_N b) 8) 255 = 0%N.
Proof. destruct b; reflexivity. Qed.

Lemma byte_shift16_low (b : byte) : N.land (N.shiftl (Byte.to_N b) 16) 65535 = 0%N.
Proof. destruct b; reflexivity. Qed.

Lemma byte_shift8_mid (b : byte) :
  N.land (N.shiftl (Byte.to_N b) 8) 65535 = N.shiftl (Byte.to_N b) 8.
Proof. destruct b; reflexivity. Qed.

Lemma byte_mid (b : byte) : N.land (Byte.to_N b) 65535 = Byte.to_N b.
Proof. destruct b; reflexivity. Qed.

Lemma lor_add (x y : N) : N.land x y = 0%N -> N.lor x y = (x + y)%N.
Proof. intros H. by rewrite N.add_nocarry_lxor, N.lxor_lor. Qed.

Lemma land_apart (x y m : N) :
  N.land x m = 0%N -> N.land y m = y -> N.land x y = 0%N.
Proof.
  intros Hx Hy. rewrite <- Hy, (N.land_comm y m), N.land_assoc, Hx.
  apply N.land_0_l.
Qed.

Lemma pack_add (a b c : byte) :
  pack (Byte.to_N a) (Byte.to_N b) (Byte.to_N c)
  = (Byte.to_N a * 65536 + Byte.to_N b * 256 + Byte.to_N c)%N.
Proof.
  unfold pack. rewrite <- N.lor_assoc.
  assert (N.lor (N.shiftl (Byte.to_N b) 8) (Byte.to_N c)
          = (Byte.to_N b * 256 + Byte.to_N c)%N) as Hbc.
  { rewrite lor_add; [by rewrite N.shiftl_mul_pow2|].
    apply (land_apart _ _ 255); [apply byte_shift8_low | apply byte_low]. }
  rewrite lor_add.
  - rewrite Hbc, N.shiftl_mul_pow2. change (2 ^ 16)%N with 65536%N. lia.
  - apply (land_apart _ _ 65535); [apply byte_shift16_low|].
    by rewrite N.land_lor_distr_l, byte_shift8_mid, byte_mid.
Qed.

Lemma pack_2 (a b : byte) :
  N.lor (N.shiftl (Byte.to_N a) 16) (N.shiftl (Byte.to_N b) 8)
  = pack (Byte.to_N a) (Byte.to_N b) (Byte.to_N x00).
Proof. unfold pack. by rewrite N.lor_0_r. Qed.

Lemma pack_1 (a : byte) :
  N.shiftl (Byte.to_N a) 16 = pack (Byte.to_N a) (Byte.to_N x00) (Byte.to_N x00).
Proof. unfold pack. by rewrite !N.lor_0_r. Qed.

Lemma to_N_inj (a b : byte) : Byte.to_N a = Byte.to_N b -> a = b.
Proof.
  intros H. pose proof (Byte.of_to_N a) as Ha. rewrite H, Byte.of_to_N in Ha.
  by injection Ha.
Qed.

Lemma pack_inj (a b c a' b' c' : byte) :
  pack (Byte.to_N a) (Byte.to_N b) (Byte.to_N c)
  = pack (Byte.to_N a') (Byte.to_N b') (Byte.to_N c') ->
  a = a' /\ b = b' /\ c = c'.
Proof.
  rewrite !pack_add.
  pose proof (Byte.to_N_bounded a). pose proof (Byte.to_N_bounded b).
  pose proof (Byte.to_N_bounded c). pose proof (Byte.to_N_bounded a').
  pose proof (Byte.to_N_bounded b'). pose proof (Byte.to_N_bounded c').
  intros Heq. repeat split; apply to_N_inj; lia.
Qed.

Lemma pack_lt (a b c : byte) :
  (pack (Byte.to_N a) (Byte.to_N b) (Byte.to_N c) < 2 ^ 24)%N.
Proof.
  rewrite pack_add.
  pose proof (Byte.to_N_bounded a). pose proof (Byte.to_N_bounded b).
  pose proof (Byte.to_N_bounded c). change (2 ^ 24)%N with 16777216%N. lia.
Qed.

(** The low sextets of a short group are zero. *)
Lemma pack_low_0 (a b : byte) :
  ((pack (Byte.to_N a) (Byte.to_N b) 0 / 2 ^ 0) mod 64 = 0)%N.
Proof.
  change 0%N with (Byte.to_N x00) at 1. rewrite pack_add, N.div_1_r.
  change (Byte.to_N x00) with 0%N. rewrite N.add_0_r.
  replace (Byte.to_N a * 65536 + Byte.to_N b * 256)%N
    with ((Byte.to_N a * 1024 + Byte.to_N b * 4) * 64)%N by lia.
  apply N.Div0.mod_mul.
Qed.

Lemma pack_low_6 (a : byte) :
  ((pack (Byte.to_N a) 0 0 / 2 ^ 6) mod 64 = 0)%N.
Proof.
  change 0%N with (Byte.to_N x00) at 1 2. rewrite pack_add.
  change (Byte.to_N x00) with 0%N. rewrite N.mul_0_l, !N.add_0_r.
  replace (Byte.to_N a * 65536)%N with ((Byte.to_N a * 1024) * 2 ^ 6)%N by (change (2^6)%N with 64%N; lia).
  rewrite N.div_mul by done.
  replace (Byte.to_N a * 1024)%N with ((Byte.to_N a * 16) * 64)%N by lia.
  apply N.Div0.mod_mul.
Qed.

Lemma group_inj (n m : N) :
  (n < 2 ^ 24)%N -> (m < 2 ^ 24)%N ->
  base64.sextet n 18 = base64.sextet m 18 ->
  base64.sextet n 12 = base64.sextet m 12 ->
  ((n / 2 ^ 6) mod 64 = (m / 2 ^ 6) mod 64)%N ->
  ((n / 2 ^ 0) mod 64 = (m / 2 ^ 0) mod 64)%N ->
  n = m.
Proof.
  intros Hn Hm H18 H12 H6 H0.
  apply sextets_inj; try done; by apply sextet_inj.
Qed.

Lemma quad_eq {A} (x1 x2 x3 x4 y1 y2 y3 y4 : A) (r r' : list A) :
  x1 :: x2 :: x3 :: x4 :: r = y1 :: y2 :: y3 :: y4 :: r' ->
  x1 = y1 /\ x2 = y2 /\ x3 = y3 /\ x4 = y4 /\ r = r'.
Proof. by intros [= -> -> -> -> ->]. Qed.

(** The encoding of RFC 4648 tells any two byte strings apart. *)
Lemma b64_groups_inj (l1 : list byte) : forall l2,
  base64.b64_groups l1 = base64.b64_groups l2 -> l1 = l2.
Proof.
  induction l1 as [|a|a b|a b c l1 IH] using list_ind3;
    intros [|a' [|b' [|c' l2]]]; cbn [base64.b64_groups]; intros H;
    try discriminate H; try reflexivity;
    apply quad_eq in H as (H18 & H12 & H6 & H0 & Hrest);
    try (by destruct (sextet_not_pad _ _ H6));
    try (by destruct (sextet_not_pad _ _ (eq_sym H6)));
    try (by destruct (sextet_not_pad _ _ H0));
    try (by destruct (sextet_not_pad _ _ (eq_sym H0))).
  - rewrite !pack_1 in H18, H12.
    assert (pack (Byte.to_N a) (Byte.to_N x00) (Byte.to_N x00)
            = pack (Byte.to_N a') (Byte.to_N x00) (Byte.to_N x00)) as Hp.
    { apply group_inj; try apply pack_lt; try done.
      - exact (eq_trans (pack_low_6 a) (eq_sym (pack_low_6 a'))).
      - exact (eq_trans (pack_low_0 a x00) (eq_sym (pack_low_0 a' x00))). }
    by apply pack_inj in Hp as (-> & _ & _).
  - rewrite !pack_2 in H18, H12, H6.
    assert (pack (Byte.to_N a) (Byte.to_N b) (Byte.to_N x00)
            = pack (Byte.to_N a') (Byte.to_N b') (Byte.to_N x00)) as Hp.
    { apply group_inj; try apply pack_lt; try done.
      - by apply sextet_inj.
      - exact (eq_trans (pack_low_0 a b) (eq_sym (pack_low_0 a' b'))). }
    by apply pack_inj in Hp as (-> & -> & _).
  - fold (pack (Byte.to_N a) (Byte.to_N b) (Byte.to_N c)) in H18, H12, H6, H0.
    fold (pack (Byte.to_N a') (Byte.to_N b') (Byte.to_N c')) in H18, H12, H6, H0.
    assert (pack (Byte.to_N a) (Byte.to_N b) (Byte.to_N c)
            = pack (Byte.to_N a') (Byte.to_N b') (Byte.to_N c')) as Hp.
    { apply group_inj; try apply pack_lt; try done; by apply sextet_inj. }
    apply pack_inj in Hp as (-> & -> & ->). f_equal. f_equal. f_equal.
    by apply IH.
Qed.

Lemma encodebytes_bytes_inj (s1 s2 : list byte) :
  base64.encodebytes_bytes s1 = base64.encodebytes_bytes s2 -> s1 = s2.
Proof.
  intros H. apply b64_groups_inj.
  change (base64.b64encode s1 = base64.b64encode s2).
  by rewrite <- !encodebytes_bytes_b64encode, H.
Qed.

Lemma append_inv_head (s a b : string) : s +:+ a = s +:+ b -> a = b.
Proof. induction s as [|c s IH]; simpl; [done|]. intros [= H]. auto. Qed.

Lemma length_append (a b : string) :
  String.length (a +:+ b) = (String.length a + String.length b)%nat.
Proof. induction a as [|c a IH]; simpl; [done | by rewrite IH]. Qed.

Lemma append_inv_tail (t : string) : forall a b, a +:+ t = b +:+ t -> a = b.
Proof.
  induction a as [|c a IH]; intros [|c' b] H; simpl in H.
  - done.
  - apply (f_equal String.length) in H. cbn [String.length] in H.
    rewrite !length_append in H. cbn [String.length] in H. lia.
  - apply (f_equal String.length) in H. cbn [String.length] in H.
    rewrite !length_append in H. cbn [String.length] in H. lia.
  - injection H as -> H. f_equal. by apply IH.
Qed.

Lemma img_format_inj (p1 p2 : string) : img_format p1 = img_format p2 -> p1 = p2.
Proof.
  unfold img_format. intros H.
  do 3 apply append_inv_head in H.
  by apply append_inv_tail in H.
Qed.

Lemma string_of_list_byte_inj (b1 b2 : list byte) :
  string_of_list_byte b1 = string_of_list_byte b2 -> b1 = b2.
Proof.
  intros H. by rewrite <- (list_byte_of_string_of_list_byte b1), H,
    list_byte_of_string_of_list_byte.
Qed.

Lemma image_markup_inj (b1 b2 : list byte) : image_markup b1 = image_markup b2 -> b1 = b2.
Proof.
  intros H.
  apply (f_equal (fun v => match v with
                           | PList [PStr s] => s
                           | _ => EmptyString
                           end)) in H.
  cbn beta iota delta [image_markup] in H.
  change (img_format (payload_of b1) = img_format (payload_of b2)) in H.
  by apply img_format_inj, string_of_list_byte_inj, encodebytes_bytes_inj in H.
Qed.

(** X10. Two photos are given the same markup only when they are the same
    bytes: the photo block, run on two single photo values, gives equal
    outcomes only for equal bytes. *)
Theorem photo_markup_injective (fold : string -> string)
  (store : gmap string (string * pyval)) (name k : string) (b1 b2 : list byte) :
  photo_markup fold (<[fold name := (k, PBytes b1)]> store) name
  = photo_markup fold (<[fold name := (k, PBytes b2)]> store) name ->
  b1 = b2.
Proof.
  rewrite (photo_markup_bytes fold _ name (k, PBytes b1) b1);
    [|apply lookup_insert_eq | done].
  rewrite (photo_markup_bytes fold _ name (k, PBytes b2) b2);
    [|apply lookup_insert_eq | done].
  cbn [fst]. intros H. apply image_markup_inj.
  assert (Some (k, image_markup b1) = Some (k, image_markup b2)) as Hsome;
    [|congruence].
  rewrite <- (lookup_insert_eq (<[fold name := (k, PBytes b1)]> store) (fold name)
                (k, image_markup b1)).
  rewrite <- (lookup_insert_eq (<[fold name := (k, PBytes b2)]> store) (fold name)
                (k, image_markup b2)).
  congruence.
Qed.

(** ** What the lookup reads *)

(** X17. The lookup reads nothing of the request but its ['dn'] parameter
    and nothing of the plug-in but its connection: two requests with the
    same ['dn'] parameter, on plug-ins with the same connection, get the
    same outcome and leave the same calls, whatever else they hold. *)
Theorem ldap_entry_reads_dn_only {Conn Query} (query_class : LDAPQuery_class Conn Query)
  (plugin plugin' : LDAPPlugin Conn) (request request' : Request)
  (st : form_state Conn Query) :
  params request !! "dn" = params request' !! "dn" ->
  get_connection plugin = get_connection plugin' ->
  ldap_entry query_class plugin request st = ldap_entry query_class plugin' request' st.
Proof.
  intros Hdn Hconn.
  assert (dn_parameter request = dn_parameter request') as Hq.
  { unfold dn_parameter. by rewrite Hdn. }
  assert (lookup_outcome query_class plugin request
          = lookup_outcome query_class plugin' request') as Hout.
  { unfold lookup_outcome. by rewrite Hq, Hconn. }
  assert (lookup_calls query_class plugin request
          = lookup_calls query_class plugin' request') as Hcalls.
  { unfold lookup_calls. by rewrite Hq, Hconn. }
  destruct (reified_ldap_entry st) as [val|] eqn:Hst.
  - by rewrite !(ldap_entry_later_read query_class _ _ st val Hst).
  - rewrite !(ldap_entry_first_read query_class _ _ st Hst). by rewrite Hout, Hcalls.
Qed.

(** ** More statements on the sample data *)

Lemma ldap_entry_raises_witness :
  (ldap_entry answer_empty_photo sample_plugin sample_request fresh).1
  = Raise IndexError.
Proof.
  destruct (ldap_entry_raises answer_empty_photo sample_plugin sample_request fresh
              sample_dn sample_attrs_empty eq_refl
              (sample_answers [(sample_dn, sample_attrs_empty)])) as [Houtcome _].
  rewrite Houtcome. vm_compute. reflexivity.
Defined.

Lemma ldap_entry_read_again_witness :
  ldap_entry answer_none sample_plugin sample_request
    (ldap_entry answer_one sample_plugin sample_request fresh).2
  = (Ok (entry_value sample_dn sample_attrs),
     (ldap_entry answer_one sample_plugin sample_request fresh).2).
Proof.
  apply (ldap_entry_read_again answer_one answer_none sample_plugin sample_request
           fresh (entry_value sample_dn sample_attrs)).
  vm_compute. reflexivity.
Defined.

Lemma sample_text_photo_raises :
  (ldap_entry answer_text_photo sample_plugin sample_request fresh).1 = Raise TypeError.
Proof. vm_compute. reflexivity. Defined.

Lemma sample_without_dn_raises :
  (ldap_entry answer_one sample_plugin request_without_dn fresh).1
  = Raise AttributeError.
Proof. vm_compute. reflexivity. Defined.

Lemma ldap_entry_read_after_raise_witness :
  ((ldap_entry answer_one sample_plugin sample_request
      (ldap_entry answer_text_photo sample_plugin sample_request fresh).2).1
   = Ok (entry_value sample_dn sample_attrs)
   /\ calls (ldap_entry answer_one sample_plugin sample_request
               (ldap_entry answer_text_photo sample_plugin sample_request fresh).2).2
      = [GetConnection; Execute sample_lookup_query 1%nat;
         GetConnection; Execute sample_lookup_query 1%nat])
  /\ calls (ldap_entry answer_one sample_plugin request_without_dn
              (ldap_entry answer_one sample_plugin request_without_dn fresh).2).2
     = [GetConnection; GetConnection].
Proof.
  split.
  - pose proof (ldap_entry_read_after_raise answer_text_photo answer_one sample_plugin
                  sample_plugin sample_request fresh TypeError sample_text_photo_raises)
      as H.
    cbv zeta in H. destruct H as (_ & _ & _ & Hout & Hcalls).
    split; [rewrite Hout | rewrite Hcalls]; vm_compute; reflexivity.
  - pose proof (ldap_entry_read_after_raise answer_one answer_one sample_plugin
                  sample_plugin request_without_dn fresh AttributeError
                  sample_without_dn_raises) as H.
    cbv zeta in H. destruct H as (_ & _ & _ & _ & Hcalls).
    rewrite Hcalls. vm_compute. reflexivity.
Defined.

Lemma title_dn_cases_witness :
  (ldap_entry_display_form_title_dn answer_two sample_plugin sample_request fresh).1
  = Ok (PStr "unknown")
  /\ (ldap_entry_display_form_title_dn answer_one sample_plugin sample_request fresh).1
     = Ok (PStr sample_dn).
Proof.
  split.
  - apply (proj1 (title_dn_cases answer_two sample_plugin sample_request fresh _
                    eq_refl (sample_answers _))).
    simpl. discriminate.
  - apply (proj2 (title_dn_cases answer_one sample_plugin sample_request fresh _
                    eq_refl (sample_answers _))
             sample_dn sample_attrs eq_refl sample_photos_ok).
Defined.

Lemma entry_table_rows_witness :
  exists items : list (string * pyval),
    (LDAPEntryPropertiesTableValues_values answer_one sample_plugin sample_request
       fresh).1 = Ok (map (fun kv => PTuple [PStr kv.1; kv.2]) items)
    /\ StronglySorted (fun x y => str_lt (fst x) (fst y)) items
    /\ ("JPEGPHOTO", sample_markup) ∈ items
    /\ ("SN", PStr "Doe") ∈ items.
Proof.
  destruct (entry_table_rows answer_one sample_plugin sample_request fresh
              sample_dn sample_attrs eq_refl (sample_answers [sample_row])
              sample_photos_ok) as (items & Hvalues & Hsorted & Hitems & _).
  exists items. split; [exact Hvalues|]. split; [exact Hsorted|]. split.
  - apply Hitems. eexists. split; [vm_compute; reflexivity|]. vm_compute. reflexivity.
  - apply Hitems. eexists. split; [vm_compute; reflexivity|]. vm_compute. reflexivity.
Defined.

Lemma sorted_items_any_order_witness :
  sorted_by_key (reverse (map_to_list (snd <$> sample_store)))
  = sorted_by_key (map_to_list (snd <$> sample_store)).
Proof.
  apply (sorted_items_any_order (snd <$> sample_store)
           (reverse (map_to_list (snd <$> sample_store)))).
  apply reverse_Permutation.
Defined.

Lemma sorted_entry_items_any_order_witness :
  sorted_by_key (reverse (ci_items (ci_store sample_attrs)))
  = sorted_by_key (ci_items (ci_store sample_attrs)).
Proof.
  apply (sorted_entry_items_any_order sample_attrs
           (reverse (ci_items (ci_store sample_attrs)))).
  apply reverse_Permutation.
Defined.

Lemma photo_markup_injective_witness : bytes_of "foob" = bytes_of "foob".
Proof.
  apply (photo_markup_injective sample_fold sample_store "jpegPhoto" "JPEGPHOTO"
           (bytes_of "foob") (bytes_of "foob")).
  reflexivity.
Defined.

Lemma inner_tab_forms_kept_apart_witness :
  (LDAPPluginAddForm = LDAPPluginAddForm
   /\ ISecurityManager ∈ provided_by security_manager
   /\ base LDAPPluginConnectionAddForm = InnerAddForm)
  \/ (LDAPPluginAddForm = LDAPPluginPropertiesEditForm
      /\ ILDAPPlugin ∈ provided_by security_manager
      /\ base LDAPPluginConnectionAddForm = InnerEditForm).
Proof.
  apply (inner_tab_forms_kept_apart (Conn := nat) sample_schema security_manager
           LDAPPluginAddForm "connection" LDAPPluginConnectionAddForm).
  apply list_elem_of_here.
Defined.

Lemma tabs_share_no_field_witness :
  NoDup sample_schema /\ length sample_schema = 31%nat.
Proof.
  apply (tabs_share_no_field (Conn := nat) sample_schema
           [["server_uri"; "start_tls"; "bind_dn"; "bind_password"; "bind_mode"];
            ["base_dn"; "search_scope"; "login_attribute"; "login_query";
             "uid_attribute"; "uid_query"; "title_format"; "mail_attribute";
             "user_extra_attributes"];
            ["groups_base_dn"; "groups_search_scope"; "group_prefix";
             "group_uid_attribute"; "group_title_format";
             "group_members_query_mode"; "groups_query";
             "group_members_attribute"; "user_groups_attribute";
             "group_mail_mode"; "group_replace_expression";
             "group_mail_attribute"; "group_extra_attributes"];
            ["users_select_query"; "users_search_query";
             "groups_select_query"; "groups_search_query"]]).
  repeat constructor; vm_compute; reflexivity.
Defined.

Lemma ldap_entry_reads_dn_only_witness :
  ldap_entry answer_one sample_plugin sample_request fresh
  = ldap_entry answer_one other_plugin other_request fresh.
Proof.
  apply (ldap_entry_reads_dn_only answer_one sample_plugin other_plugin
           sample_request other_request fresh).
  - vm_compute. reflexivity.
  - reflexivity.
Defined.
